(** * zydis-fuzzer: a shallow embedding of [zydis_fuzzer.cc]

    The fuzzer draws numbers from the C library's [rand()], scribbles a
    64-byte candidate instruction into a stack buffer, records the first
    16 bytes and the decoder's machine mode in three globals, and hands the
    buffer to the Zydis decoder.  A signal handler prints the recorded
    globals when the decoder faults.

    Bytes are [Init.Byte.byte] (through coqutil's [byte.of_Z] and
    [byte.unsigned], which wrap like a store into a [uint8_t]); C integers
    are [Z] with every conversion written out; arrays are lists accessed
    with stdpp's lookup and insert; the stateful code runs in a small state
    monad. *)

From Stdlib Require Import ZArith Lia List String Ascii DecimalString.
From stdpp Require Import base list.
From coqutil Require Import Byte.
Import Stdlib.Init.Byte.
Import ListNotations.

#[local] Open Scope Z_scope.

(** ** C integer conversions *)

(** Conversion of an [int] to [size_t] (64 bits on the LP64 targets the
    fuzzer is built for). *)
Definition to_size_t (z : Z) : Z := z mod 2 ^ 64.

(** Conversion of an [int] to [uint32_t]. *)
Definition to_uint32 (z : Z) : Z := z mod 2 ^ 32.

(** A C scalar used as a condition: nonzero is true. *)
Definition c_true (z : Z) : bool := negb (z =? 0).

(** ** A state monad for the imperative code *)

Definition State (S A : Type) : Type := S -> A * S.

Definition ret {S A} (a : A) : State S A := fun s => (a, s).

Definition bind {S A B} (m : State S A) (k : A -> State S B) : State S B :=
  fun s => let (a, s') := m s in k a s'.

Notation "x <- m ;; k" := (bind m (fun x => k))
  (at level 100, m at next level, right associativity).
Notation "m ;;; k" := (bind m (fun _ => k))
  (at level 100, right associativity).

(** [for (i = lo; i < hi; i++) body(i)], unrolled over the number of
    iterations that remain. *)
Fixpoint for_loop {S} (n : nat) (i : Z) (body : Z -> State S unit) : State S unit :=
  match n with
  | O => ret tt
  | S n' => body i ;;; for_loop n' (i + 1) body
  end.

Definition for_range {S} (lo hi : Z) (body : Z -> State S unit) : State S unit :=
  for_loop (Z.to_nat (hi - lo)) lo body.

(** ** The prefix table of [generate_prefix_bytes] *)

Definition prefix_collection : list byte :=
  [ x66; x67; xf2; xf3;
    x66; x67; xf2; xf3;
    x66; x67; xf2; xf3;
    x66; x67; xf2; xf3;

    x26; x2e; x36; x3e;
    x26; x2e; x36; x3e;
    x64; x65; x66; xf0;

    (* The last 16 prefixes in this table must be REX. *)
    x40; x41; x42; x43;
    x44; x45; x46; x47;
    x48; x49; x4a; x4b;
    x4c; x4d; x4e; x4f ].

(** [sizeof(prefix_collection)]: one byte per entry. *)
Definition sizeof_prefix_collection : Z := Z.of_nat (length prefix_collection).

(** [tbl[i]].  A read outside the table is undefined in C; the model
    returns [x00] there, and [table_index_in_range] shows that the
    generator never gets there. *)
Definition array_get (tbl : list byte) (i : Z) : byte :=
  match tbl !! Z.to_nat i with
  | Some b => b
  | None => x00
  end.

(** The 16-value REX range 0x40..0x4F. *)
Definition is_rex (b : byte) : bool :=
  (0x40 <=? byte.unsigned b) && (byte.unsigned b <=? 0x4F).

Section Generator.

(** The C library's generator: [rand()] returns a value and advances the
    hidden state.  The C standard promises a result in 0..RAND_MAX; the
    proofs that need it take the lower bound as [rand_nonneg]. *)
Variable RandState : Type.
Variable rand : RandState -> Z * RandState.

(** What a call of the generator sees and changes: the random source,
    the caller's buffer, and a log of every store made through the
    buffer pointer, as (offset, value) in program order.  The log is
    ghost state: the program never reads it. *)
Record GenState : Type := mkGen {
  rng : RandState;
  buf : list byte;
  writes : list (Z * byte)
}.

Definition Gen := State GenState.

(** [rand()] *)
Definition do_rand : Gen Z :=
  fun g => let (v, r') := rand (rng g) in
           (v, mkGen r' (buf g) (writes g)).

(** [buf[off] = b].  A store outside the
    array is undefined in C: the model leaves the array alone there but
    still logs the offset, so that the log shows it. *)
Definition store (off : Z) (b : byte) : Gen unit :=
  fun g =>
    (tt, mkGen (rng g)
               (if 0 <=? off then <[Z.to_nat off := b]> (buf g) else buf g)
               (writes g ++ [(off, b)])).

(** The same store of an integer expression, converted to [uint8_t]. *)
Definition store_int (off : Z) (v : Z) : Gen unit := store off (byte.of_Z v).

(** Helper function to scribble a sequence of randomized x86 instruction
    prefix bytes.  [dst] is the offset of the destination in the
    buffer. *)
Definition generate_prefix_bytes (dst : Z) (bytecount : Z) (is_64bit : bool)
  : Gen unit :=
  if is_64bit then
    for_range 0 bytecount (fun i =>
      r <- do_rand ;;
      store (dst + i)
            (array_get prefix_collection
               (to_size_t r mod sizeof_prefix_collection)))
  else
    for_range 0 bytecount (fun i =>
      r <- do_rand ;;
      store (dst + i)
            (array_get prefix_collection
               (to_size_t r mod (sizeof_prefix_collection - 16)))).

(** [*bufptr++ = v]: store through the cursor, then advance it. *)
Definition store_inc (bufptr : Z) (v : Z) : Gen Z :=
  store_int bufptr v ;;; ret (bufptr + 1).

(** The [switch( rand() % 50 )] of [generate_rand_instr], on the value
    [sel] of the selector expression; it returns the cursor after the
    escape sequence. *)
Definition escape_switch (sel : Z) (bufptr : Z) : Gen Z :=
  match sel with
  | 0 => ret bufptr                                   (* no escape *)
  | 1 => bufptr <- store_inc bufptr 0x0F ;;          (* 3dnow *)
         bufptr <- store_inc bufptr 0x0F ;; ret bufptr
  | 2 => bufptr <- store_inc bufptr 0x0F ;;          (* 0F 38 escape *)
         bufptr <- store_inc bufptr 0x38 ;; ret bufptr
  | 3 => bufptr <- store_inc bufptr 0x0F ;;          (* 0F 3A escape *)
         bufptr <- store_inc bufptr 0x3A ;; ret bufptr
  | 4 => bufptr <- store_inc bufptr 0x0F ;; ret bufptr  (* 0F escape *)
  | 5 | 6 | 7 | 8 | 9 | 10 =>                         (* EVEX sequence *)
      r <- do_rand ;;
      let rv := to_uint32 r in
      bufptr <- store_inc bufptr 0x62 ;;
      bufptr <- store_inc bufptr
        (Z.land rv (if c_true (Z.land rv 0x300) then 0xF7 else 0xFF)) ;;
      r <- do_rand ;;
      let rv := to_uint32 r in
      bufptr <- store_inc bufptr
        (Z.lor rv (if c_true (Z.land rv 0x300) then 0 else 0x78)) ;;
      ret bufptr
  | 11 | 12 | 13 | 14 | 15 | 16 =>                    (* VEX3 sequence *)
      r <- do_rand ;;
      let rv := to_uint32 r in
      bufptr <- store_inc bufptr 0xC4 ;;
      bufptr <- store_inc bufptr
        (Z.land rv (if c_true (Z.land rv 0x300) then 0xE3 else 0xFF)) ;;
      r <- do_rand ;;
      let rv := to_uint32 r in
      bufptr <- store_inc bufptr
        (Z.lor rv (if c_true (Z.land rv 0x300) then 0 else 0x78)) ;;
      ret bufptr
  | 17 | 18 | 19 | 20 | 21 | 22 =>                    (* VEX2 sequence *)
      r <- do_rand ;;
      let rv := to_uint32 r in
      bufptr <- store_inc bufptr 0xC5 ;;
      bufptr <- store_inc bufptr
        (Z.lor rv (if c_true (Z.land rv 0x300) then 0 else 0x78)) ;;
      ret bufptr
  | _ =>                                              (* 23 to 49: XOP sequence *)
      r <- do_rand ;;
      let rv := to_uint32 r in
      bufptr <- store_inc bufptr 0x8F ;;
      bufptr <- store_inc bufptr
        (Z.lxor (Z.land rv (if c_true (Z.land rv 0x300) then 0xE3 else 0xFF)) 8) ;;
      r <- do_rand ;;
      let rv := to_uint32 r in
      bufptr <- store_inc bufptr
        (Z.lor rv (if c_true (Z.land rv 0x300) then 0 else 0x78)) ;;
      ret bufptr
  end.

(** The prefix count of [generate_rand_instr]: [r2 = rand() % 254] on
    [int] ([%] truncates, hence [Z.rem]), then [(r2*r2*r2) >> 20].  The
    product of three values below 254 in magnitude fits an [int], so no
    wrap-around is written. *)
Definition prefix_count (r2 : Z) : Z := Z.shiftr (r2 * r2 * r2) 20.

(** Generate 64 bytes of pseudo-random instruction content into the
    array of the state; the pointer [buf] of the source is offset 0. *)
Definition generate_rand_instr (is_64bit : bool) : Gen unit :=
  r <- do_rand ;;
  let r2 := Z.rem r 254 in
  let num_prefixes := prefix_count r2 in
  generate_prefix_bytes 0 num_prefixes is_64bit ;;;
  let bufptr := 0 + num_prefixes in
  sel <- do_rand ;;
  bufptr <- escape_switch (Z.rem sel 50) bufptr ;;
  let remain_offset := bufptr - 0 in
  for_range remain_offset 64 (fun i =>
    r <- do_rand ;;
    store_int i (Z.land r 0xFF)).

(** A call [generate_rand_instr(b, is_64bit)] on the caller's array [b]
    with the random source in state [r]: the state it ends in. *)
Definition call_generate_rand_instr (b : list byte) (is_64bit : bool)
    (r : RandState) : GenState :=
  snd (generate_rand_instr is_64bit (mkGen r b [])).

End Generator.

Arguments mkGen {RandState}.
Arguments rng {RandState}.
Arguments buf {RandState}.
Arguments writes {RandState}.

(** ** A scripted random source, for running the model

    The state is the list of values that [rand()] will return; a source
    that has run dry returns 0. *)
Definition scripted_rand (s : list N) : Z * list N :=
  match s with
  | [] => (0, [])
  | v :: s' => (Z.of_N v, s')
  end.

(** The sample generator of the C standard (7.22.2.2): a 32-bit linear
    congruential state, of which bits 16..30 are returned. *)
Definition lcg_rand (next : Z) : Z * Z :=
  let next' := (next * 1103515245 + 12345) mod 2 ^ 32 in
  ((next' / 65536) mod 32768, next').

(** ** Text formatting of the [printf] calls *)

#[local] Open Scope string_scope.

(** The newline character of the format strings. *)
Definition nl : string := String (ascii_of_nat 10) EmptyString.

(** [%d] *)
Definition fmt_d (z : Z) : string :=
  DecimalString.NilZero.string_of_int (Z.to_int z).

(** [n] copies of a character. *)
Fixpoint fill (c : ascii) (n : nat) : string :=
  match n with
  | O => EmptyString
  | S n' => String c (fill c n')
  end.

(** Left padding to a minimum field width. *)
Definition pad_left (c : ascii) (width : nat) (s : string) : string :=
  fill c (width - String.length s) ++ s.

(** [%4d]: decimal, padded with spaces to at least four characters. *)
Definition fmt_4d (z : Z) : string := pad_left " "%char 4 (fmt_d z).

(** The digits of [%X], by value. *)
Definition hex_alphabet : string := "0123456789ABCDEF".

Definition hex_digit (d : Z) : ascii :=
  match String.get (Z.to_nat d) hex_alphabet with
  | Some c => c
  | None => "?"%char
  end.

(** The upper-case hexadecimal digits of an [unsigned int], most
    significant first; eight digits are the most a 32-bit value has. *)
Fixpoint hex_digits (fuel : nat) (v : Z) (acc : string) : string :=
  match fuel with
  | O => acc
  | S f =>
      let acc' := String (hex_digit (v mod 16)) acc in
      if (v / 16 =? 0)%Z then acc' else hex_digits f (v / 16) acc'
  end.

(** [%02X]: upper-case hexadecimal, padded with zeros to at least two
    characters.  The argument is a [uint8_t] promoted to [int]. *)
Definition fmt_02X (v : Z) : string := pad_left "0"%char 2 (hex_digits 8 v EmptyString).

(** [%s].  A null pointer is undefined behaviour for [printf]; glibc
    prints [(null)]. *)
Definition fmt_s (p : option string) : string :=
  match p with
  | Some s => s
  | None => "(null)"
  end.

(** ** Zydis types that the fuzzer names

    [Zydis/Zydis.h] is not among the sources; each enumeration has the
    enumerators that the fuzzer uses. *)

Inductive ZydisMachineMode : Type :=
| ZYDIS_MACHINE_MODE_LONG_64
| ZYDIS_MACHINE_MODE_LEGACY_32
| ZYDIS_MACHINE_MODE_LEGACY_16
| ZYDIS_MACHINE_MODE_REAL_16.

Inductive ZydisAddressWidth : Type :=
| ZYDIS_ADDRESS_WIDTH_16
| ZYDIS_ADDRESS_WIDTH_32
| ZYDIS_ADDRESS_WIDTH_64.

Inductive ZydisDecoderMode : Type :=
| ZYDIS_DECODER_MODE_KNC
| ZYDIS_DECODER_MODE_AMD_BRANCHES.

Definition ZydisDecoderMode_eqb (a b : ZydisDecoderMode) : bool :=
  match a, b with
  | ZYDIS_DECODER_MODE_KNC, ZYDIS_DECODER_MODE_KNC => true
  | ZYDIS_DECODER_MODE_AMD_BRANCHES, ZYDIS_DECODER_MODE_AMD_BRANCHES => true
  | _, _ => false
  end.

Record ZydisDecoder : Type := mkDecoder {
  machine_mode : ZydisMachineMode;
  address_width : ZydisAddressWidth;
  decoder_mode : ZydisDecoderMode -> bool
}.

(** The four decoder objects of [main]; a [ZydisDecoder*] in this program
    points to one of them. *)
Inductive decoder_ptr : Type :=
| decoder_x86_16
| decoder_x86_32
| decoder_x86_64_intel
| decoder_x86_64_amd.

(** The signals that can end a call of the decoder: the three that the
    fuzzer handles, and [SIG_other n] for a signal with another number
    [n] whose default action terminates the process (SIGFPE, SIGILL, ...).
    A signal that is ignored or stops the process by default (SIGCHLD,
    SIGURG, SIGWINCH, SIGCONT, ...) does not end the call: the decoder
    goes on to return, and the call is a [Returns]. *)
Inductive signal : Type :=
| SIGABRT
| SIGSEGV
| SIGBUS
| SIG_other (n : Z).

Definition signal_eqb (a b : signal) : bool :=
  match a, b with
  | SIGABRT, SIGABRT | SIGSEGV, SIGSEGV | SIGBUS, SIGBUS => true
  | SIG_other n, SIG_other m => (n =? m)%Z
  | _, _ => false
  end.

(** Termination status of the process: [exit(EXIT_FAILURE)], or the
    [return 0] of [main]. *)
Inductive exit_status : Type :=
| EXIT_SUCCESS
| EXIT_FAILURE.

(** What a call of the external decoder does to the fuzzer: it returns a
    status, or a signal raised in it ends the call. *)
Inductive DecodeOutcome : Type :=
| Returns (status : Z)
| Raises (s : signal).

(** ** The recorded data for the last instruction *)

Record Memento : Type := mkMemento {
  instr_buf : list byte;
  machine_mode_int : Z;
  machine_mode_str : option string
}.

(** What the process does that can be seen from outside, in order.
    [EvDecode] is the call of the external decoder; besides the arguments
    it carries the value that the three globals have at that moment, which
    is what a handler interrupting the call would read. *)
Inductive event : Type :=
| EvPrintf (text : string)
| EvFflush
| EvExit (st : exit_status)
| EvKilled (s : signal)
| EvDecode (decoder : decoder_ptr) (buffer : list byte) (length : Z)
           (globals : Memento).

(** [memcpy(dst, src, n)] on arrays that hold at least [n] bytes. *)
Definition memcpy (dst src : list byte) (n : nat) : list byte :=
  take n src ++ drop n dst.

(** An array of [n] bytes that nobody has initialised: it holds whatever
    [junk] the stack had. *)
Definition stack_array (n : nat) (junk : nat -> byte) : list byte :=
  map junk (seq 0 n).

Section Fuzzer.

(** The C library: the random source with its seeding function, and
    [atoi]. *)
Variable RandState : Type.
Variable rand : RandState -> Z * RandState.
Variable srand : Z -> RandState.
Variable atoi : string -> Z.

(** Zydis: the numeric value of each machine-mode enumerator, the
    decoder modes that [ZydisDecoderInit] switches on by default, and
    the decoder under test. *)
Variable machine_mode_value : ZydisMachineMode -> Z.
Variable zydis_default_mode : ZydisDecoderMode -> bool.
Variable ZydisDecoderDecodeBuffer :
  ZydisDecoder -> list byte -> Z -> DecodeOutcome.

(** The process: the random source, the three globals, the signals for
    which [sigabrt_handler] is installed, and the events so far. *)
Record World : Type := mkWorld {
  w_rng : RandState;
  globals : Memento;
  handled : list signal;
  trace : list event
}.

Definition Proc := State World.

Definition emit (e : event) : Proc unit :=
  fun w => (tt, mkWorld (w_rng w) (globals w) (handled w) (trace w ++ [e])).

Definition get_globals : Proc Memento := fun w => (globals w, w).

Definition set_globals (m : Memento) : Proc unit :=
  fun w => (tt, mkWorld (w_rng w) m (handled w) (trace w)).

(** [rand()] in [main]. *)
Definition main_rand : Proc Z :=
  fun w => let (v, r') := rand (w_rng w) in
           (v, mkWorld r' (globals w) (handled w) (trace w)).

(** The [for] loop of the handler over the 16 recorded bytes. *)
Fixpoint print_bytes (n : nat) (i : nat) (bytes : list byte) : Proc unit :=
  match n with
  | O => ret tt
  | S n' =>
      emit (EvPrintf (fmt_02X (byte.unsigned (array_get bytes (Z.of_nat i))) ++ " ")) ;;;
      print_bytes n' (S i) bytes
  end.

(** Handler for SIGABRT, SIGSEGV, SIGBUS that prints the byte sequence
    of the last instruction submitted to the decoder. *)
Definition sigabrt_handler (signal_type : signal) : Proc unit :=
  emit (EvPrintf nl) ;;;
  let sigstr :=
    match signal_type with
    | SIGABRT => "SIGABRT"
    | SIGSEGV => "SIGSEGV"
    | SIGBUS => "SIGBUS"
    | SIG_other _ => "n/a"
    end in
  m <- get_globals ;;
  emit (EvPrintf ("Machine mode: " ++ fmt_d (machine_mode_int m) ++ " ("
                  ++ fmt_s (machine_mode_str m) ++ ")" ++ nl)) ;;;
  emit (EvPrintf ("Opcode at time of " ++ sigstr ++ ":" ++ nl)) ;;;
  print_bytes 16 0 (instr_buf m) ;;;
  emit (EvPrintf nl) ;;;
  emit EvFflush ;;;
  emit (EvExit EXIT_FAILURE).

Definition install_sigabrt_handler : Proc Z :=
  fun w => (0%Z, mkWorld (w_rng w) (globals w)
                         (SIGABRT :: SIGSEGV :: SIGBUS :: handled w) (trace w)).

(** [ZydisDecoderInit] and [ZydisDecoderEnableMode], as far as the
    fuzzer depends on them: the first fills in the machine mode and the
    address width, the second sets one entry of the mode array. *)
Definition ZydisDecoderInit (mode : ZydisMachineMode) (width : ZydisAddressWidth)
  : ZydisDecoder :=
  mkDecoder mode width zydis_default_mode.

Definition ZydisDecoderEnableMode (d : ZydisDecoder) (mode : ZydisDecoderMode)
    (enabled : bool) : ZydisDecoder :=
  mkDecoder (machine_mode d) (address_width d)
    (fun m => if ZydisDecoderMode_eqb m mode then enabled else decoder_mode d m).

(** The decoders that [main] prepares before the loop. *)
Definition decoders (p : decoder_ptr) : ZydisDecoder :=
  match p with
  | decoder_x86_16 =>
      ZydisDecoderEnableMode
        (ZydisDecoderInit ZYDIS_MACHINE_MODE_LEGACY_16 ZYDIS_ADDRESS_WIDTH_16)
        ZYDIS_DECODER_MODE_KNC true
  | decoder_x86_32 =>
      ZydisDecoderEnableMode
        (ZydisDecoderInit ZYDIS_MACHINE_MODE_LEGACY_32 ZYDIS_ADDRESS_WIDTH_32)
        ZYDIS_DECODER_MODE_KNC true
  | decoder_x86_64_intel =>
      ZydisDecoderEnableMode
        (ZydisDecoderInit ZYDIS_MACHINE_MODE_LONG_64 ZYDIS_ADDRESS_WIDTH_64)
        ZYDIS_DECODER_MODE_KNC true
  | decoder_x86_64_amd =>
      ZydisDecoderEnableMode
        (ZydisDecoderEnableMode
           (ZydisDecoderInit ZYDIS_MACHINE_MODE_LONG_64 ZYDIS_ADDRESS_WIDTH_64)
           ZYDIS_DECODER_MODE_KNC true)
        ZYDIS_DECODER_MODE_AMD_BRANCHES true
  end.

(** The [switch( machine_mode_int )] of the wrapper. *)
Definition mode_label (mode_int : Z) : string :=
  if (mode_int =? machine_mode_value ZYDIS_MACHINE_MODE_LONG_64)%Z then "long64"
  else if (mode_int =? machine_mode_value ZYDIS_MACHINE_MODE_LEGACY_32)%Z then "protected32"
  else if (mode_int =? machine_mode_value ZYDIS_MACHINE_MODE_LEGACY_16)%Z then "protected16"
  else if (mode_int =? machine_mode_value ZYDIS_MACHINE_MODE_REAL_16)%Z then "real16"
  else "(n/a)".

(** The call of the external decoder, and what a signal that ends the
    call does: the handler runs if it is installed for that signal;
    otherwise the signal is one whose default action terminates the
    process (see [signal]). *)
Definition call_ZydisDecoderDecodeBuffer (decoder : decoder_ptr)
    (buffer : list byte) (length : Z) : Proc DecodeOutcome :=
  m <- get_globals ;;
  emit (EvDecode decoder buffer length m) ;;;
  match ZydisDecoderDecodeBuffer (decoders decoder) buffer length with
  | Returns st => ret (Returns st)
  | Raises s =>
      (fun w =>
         if existsb (signal_eqb s) (handled w)
         then sigabrt_handler s w
         else emit (EvKilled s) w) ;;;
      ret (Raises s)
  end.

(** Wrapped version of the Zydis decoder function that records an
    instruction byte sequence before calling the decoder itself. *)
Definition wrapped_ZydisDecoderDecodeBuffer (decoder : decoder_ptr)
    (buffer : list byte) (length : Z) : Proc DecodeOutcome :=
  m <- get_globals ;;
  set_globals (mkMemento (memcpy (instr_buf m) buffer 16)
                         (machine_mode_int m) (machine_mode_str m)) ;;;
  m <- get_globals ;;
  set_globals (mkMemento (instr_buf m)
                         (machine_mode_value (machine_mode (decoders decoder)))
                         (machine_mode_str m)) ;;;
  m <- get_globals ;;
  set_globals (mkMemento (instr_buf m) (machine_mode_int m)
                         (Some (mode_label (machine_mode_int m)))) ;;;
  call_ZydisDecoderDecodeBuffer decoder buffer length.

(** The [switch( rand() & 3 )] of the loop; it has no [default], so a
    value that no [case] handles leaves both variables unset. *)
Definition select_decoder (draw : Z) : option (Z * decoder_ptr) :=
  match draw with
  | 0 => Some (16, decoder_x86_16)
  | 1 => Some (32, decoder_x86_32)
  | 2 => Some (64, decoder_x86_64_intel)
  | 3 => Some (64, decoder_x86_64_amd)
  | _ => None
  end%Z.

(** [generate_rand_instr( buf, is_64bit )] from [main]: the generator
    runs on the random source of the process and on the caller's array,
    and leaves the filled array. *)
Definition main_generate_rand_instr (b : list byte) (is_64bit : bool)
  : Proc (list byte) :=
  fun w =>
    let g := call_generate_rand_instr RandState rand b is_64bit (w_rng w) in
    (buf g, mkWorld (rng g) (globals w) (handled w) (trace w)).

(** The breadcrumbs after a passed test. *)
Definition breadcrumbs (passed_tests : Z) : Proc unit :=
  if negb (c_true (Z.rem passed_tests 1000000)) then
    emit (EvPrintf ".") ;;;
    (if negb (c_true (Z.rem passed_tests 10000000)) then
       emit (EvPrintf ("[ " ++ fmt_4d (Z.quot passed_tests 1000000)
                       ++ "M tests passed ]" ++ nl))
     else ret tt) ;;;
    emit EvFflush
  else ret tt.

(** One pass of the main loop; [junk] is what the stack holds where
    [buf] is allocated.  The result tells whether the process is still
    running: a signal raised in the decoder ends it, and so would a
    selector value without a [case]. *)
Definition loop_body (i : Z) (junk : nat -> byte) : Proc bool :=
  let buf := stack_array 64 junk in
  r <- main_rand ;;
  match select_decoder (Z.land r 3) with
  | None => ret false
  | Some (bits, decoder_to_use) =>
      buf <- main_generate_rand_instr buf (bits =? 64)%Z ;;
      res <- wrapped_ZydisDecoderDecodeBuffer decoder_to_use buf 64 ;;
      match res with
      | Raises _ => ret false
      | Returns _ =>
          let passed_tests := (i + 1)%Z in
          breadcrumbs passed_tests ;;;
          ret true
      end
  end.

(** [for(i=0; i<n; i++)] with the body above, from iteration [i] on;
    [junk k] is the stack content met by iteration [k]. *)
Fixpoint fuzz_loop (n : nat) (i : Z) (junk : Z -> nat -> byte) : Proc bool :=
  match n with
  | O => ret true
  | S n' =>
      alive <- loop_body i (junk i) ;;
      if alive then fuzz_loop n' (i + 1)%Z junk else ret false
  end.

(** [main] with an iteration budget of [n]; the program has
    [n = 2000000000]. *)
Definition main_with_budget (n : nat) (argv : list string)
    (junk : Z -> nat -> byte) : Proc unit :=
  let argc := Z.of_nat (List.length argv) in
  (fun w => (tt, mkWorld
               (srand (to_uint32 (if (1 <? argc)%Z
                                  then atoi (nth 1 argv EmptyString)
                                  else 0%Z)))
               (globals w) (handled w) (trace w))) ;;;
  _ <- install_sigabrt_handler ;;
  alive <- fuzz_loop n 0 junk ;;
  if alive then emit (EvExit EXIT_SUCCESS) else ret tt.

Definition main (argv : list string) (junk : Z -> nat -> byte) : Proc unit :=
  main_with_budget (Z.to_nat 2000000000) argv junk.

(** The process when [main] starts: the globals are zero-initialised,
    no handler is installed, nothing has happened. *)
Definition initial_world (r : RandState) : World :=
  mkWorld r (mkMemento (repeat x00 16) 0 None) [] [].

End Fuzzer.

Arguments mkWorld {RandState}.
Arguments w_rng {RandState}.
Arguments globals {RandState}.
Arguments handled {RandState}.
Arguments trace {RandState}.
Arguments do_rand {RandState}.
Arguments store {RandState}.
Arguments store_int {RandState}.
Arguments store_inc {RandState}.
Arguments generate_prefix_bytes {RandState}.
Arguments escape_switch {RandState}.
Arguments generate_rand_instr {RandState}.
Arguments call_generate_rand_instr {RandState}.
Arguments initial_world {RandState}.
Arguments emit {RandState}.
Arguments sigabrt_handler {RandState}.
Arguments print_bytes {RandState}.
Arguments wrapped_ZydisDecoderDecodeBuffer {RandState}.
Arguments call_ZydisDecoderDecodeBuffer {RandState}.
Arguments main_generate_rand_instr {RandState}.
Arguments breadcrumbs {RandState}.
Arguments loop_body {RandState}.
Arguments fuzz_loop {RandState}.
Arguments main_with_budget {RandState}.
Arguments main {RandState}.

(** ** Vocabulary of the properties *)

#[local] Close Scope string_scope.
#[local] Open Scope Z_scope.

(** The offsets [lo], [lo+1], ..., [lo+n-1]. *)
Definition zseq (lo : Z) (n : nat) : list Z :=
  map (fun k => lo + Z.of_nat k) (seq 0 n).

(** The effect of a sequence of logged stores on an array. *)
Definition replay (ws : list (Z * byte)) (b : list byte) : list byte :=
  fold_left
    (fun acc w => if 0 <=? fst w then <[Z.to_nat (fst w) := snd w]> acc else acc)
    ws b.

(** [appends m r a r' ws]: started with the random source in state [r],
    on any array and after any earlier stores, the computation [m] returns
    [a], leaves the random source in [r'], and makes exactly the stores
    [ws]. *)
Definition appends {RandState A} (m : Gen RandState A)
    (r : RandState) (a : A) (r' : RandState) (ws : list (Z * byte)) : Prop :=
  forall b w0, m (mkGen r b w0) = (a, mkGen r' (replay ws b) (w0 ++ ws)).

(** The values that the escape-sequence switch stores for selector value
    [sel], in order. *)
Definition escape_bytes {RandState} (rand : RandState -> Z * RandState)
    (sel : Z) (g : GenState RandState) : list byte :=
  map snd (drop (length (writes g)) (writes (snd (escape_switch rand sel 0 g)))).



(** How many of the draws 0..253 give prefix count [k]. *)
Definition prefix_count_freq (k : Z) : nat :=
  length (List.filter (fun r2 => prefix_count r2 =? k) (zseq 0 254)).

(** A random word whose map-selector byte is masked with [mask] when its
    bits 8-9 are not all zero, and left as it is otherwise. *)
Definition masked_if_flagged (rv mask : Z) : Z :=
  if Z.land rv 0x300 =? 0 then rv else Z.land rv mask.

(** A random word into which the pattern 0x78 is forced when its own bits
    8-9 are zero. *)
Definition forced_if_clear (rv : Z) : Z :=
  if Z.land rv 0x300 =? 0 then Z.lor rv 0x78 else rv.

(** The bytes stored for each selector value 0..49, given the first and
    the second random word that the switch draws. *)
Definition escape_table (rv1 rv2 : Z) : list (list byte) :=
  [ []; [x0f; x0f]; [x0f; x38]; [x0f; x3a]; [x0f] ]
  ++ repeat [x62; byte.of_Z (masked_if_flagged rv1 0xF7);
             byte.of_Z (forced_if_clear rv2)] 6
  ++ repeat [xc4; byte.of_Z (masked_if_flagged rv1 0xE3);
             byte.of_Z (forced_if_clear rv2)] 6
  ++ repeat [xc5; byte.of_Z (forced_if_clear rv1)] 6
  ++ repeat [x8f; byte.of_Z (Z.lxor (masked_if_flagged rv1 0xE3) 8);
             byte.of_Z (forced_if_clear rv2)] 27.



(** The value of an upper-case hexadecimal digit: its place in the
    alphabet. *)
Definition hex_value (c : ascii) : option Z :=
  option_map Z.of_nat (String.index 0 (String c EmptyString) hex_alphabet).

(** The name that the handler prints for a signal. *)
Definition signal_name (s : signal) : string :=
  match s with
  | SIGABRT => "SIGABRT"
  | SIGSEGV => "SIGSEGV"
  | SIGBUS => "SIGBUS"
  | SIG_other _ => "n/a"
  end%string.

(** The diagnostic block: a function of the signal and of the recorded
    data alone. *)
Definition handler_report (s : signal) (mode_int : Z) (label : string)
    (bytes : list byte) : list event :=
  [ EvPrintf nl;
    EvPrintf ("Machine mode: " ++ fmt_d mode_int ++ " (" ++ label ++ ")" ++ nl)%string;
    EvPrintf ("Opcode at time of " ++ signal_name s ++ ":" ++ nl)%string ]
  ++ map (fun b => EvPrintf (fmt_02X (byte.unsigned b) ++ " ")%string) bytes
  ++ [ EvPrintf nl; EvFflush; EvExit EXIT_FAILURE ].

(** What the globals must hold while decoder [d] works on [buffer]. *)
Definition expected_memento (machine_mode_value : ZydisMachineMode -> Z)
    (zydis_default_mode : ZydisDecoderMode -> bool)
    (d : decoder_ptr) (buffer : list byte) : Memento :=
  let id := machine_mode_value (machine_mode (decoders zydis_default_mode d)) in
  mkMemento (take 16 buffer) id (Some (mode_label machine_mode_value id)).

(** The submissions in a trace, oldest first: decoder and buffer. *)
Fixpoint submissions (t : list event) : list (decoder_ptr * list byte) :=
  match t with
  | [] => []
  | EvDecode d b _ _ :: t' => (d, b) :: submissions t'
  | _ :: t' => submissions t'
  end.

(** The candidates as a function of the random source alone: what the
    loop would submit in [n] passes from state [r] of the source, were no
    pass to end the process. *)
Fixpoint candidate_stream {RandState} (rand : RandState -> Z * RandState)
    (n : nat) (r : RandState) : list (decoder_ptr * list byte) :=
  match n with
  | O => []
  | S n' =>
      let (v, r1) := rand r in
      match select_decoder (Z.land v 3) with
      | None => []
      | Some (bits, d) =>
          let g := call_generate_rand_instr rand (repeat x00 64) (bits =? 64) r1 in
          (d, buf g) :: candidate_stream rand n' (rng g)
      end
  end.

(** The seed that [main] passes to [srand]. *)
Definition seed_of (atoi : string -> Z) (argv : list string) : Z :=
  to_uint32 (if 1 <? Z.of_nat (length argv) then atoi (nth 1 argv EmptyString) else 0).

(** ** Sample collaborators, for running the model *)

(** Values for the machine-mode enumerators. *)
Definition sample_mode_value (m : ZydisMachineMode) : Z :=
  match m with
  | ZYDIS_MACHINE_MODE_LONG_64 => 0
  | ZYDIS_MACHINE_MODE_LEGACY_32 => 3
  | ZYDIS_MACHINE_MODE_LEGACY_16 => 4
  | ZYDIS_MACHINE_MODE_REAL_16 => 5
  end.

(** A decoder that crashes on every candidate that starts with an
    operand-size prefix. *)
Definition sample_decoder (d : ZydisDecoder) (buffer : list byte) (len : Z)
    : DecodeOutcome :=
  match buffer with
  | x66 :: _ => Raises SIGSEGV
  | _ => Returns 0
  end.

(** A decoder that never crashes. *)
Definition sound_decoder (d : ZydisDecoder) (buffer : list byte) (len : Z)
    : DecodeOutcome := Returns 0.

(** A process in which decoder [decoder_x86_32] has just been given a
    candidate that starts with [C4 E2 7B F7]. *)
Definition sample_world : World Z :=
  mkWorld 0
    (mkMemento ([xc4; xe2; x7b; xf7] ++ repeat x90 12) 3 (Some "protected32"%string))
    [SIGABRT; SIGSEGV; SIGBUS] [].

(** What follows the call of the decoder in the trace of the wrapper,
    given the installed handlers [h], the globals [m] at the call and the
    outcome of the call. *)
Definition after_call (h : list signal) (m : Memento) (o : DecodeOutcome)
    : list event :=
  match o with
  | Returns _ => []
  | Raises s =>
      if existsb (signal_eqb s) h
      then handler_report s (machine_mode_int m) (fmt_s (machine_mode_str m))
             (instr_buf m)
      else [EvKilled s]
  end.

(** An event other than a call of the decoder. *)
Definition quiet (e : event) : Prop :=
  match e with
  | EvDecode _ _ _ _ => False
  | _ => True
  end.

(** At a call of the decoder the globals hold the first 16 bytes of the
    buffer of that call and the mode number and label of its decoder. *)
Definition decode_ok (machine_mode_value : ZydisMachineMode -> Z)
    (zydis_default_mode : ZydisDecoderMode -> bool) (e : event) : Prop :=
  match e with
  | EvDecode d buffer _ m =>
      m = expected_memento machine_mode_value zydis_default_mode d buffer
      /\ length (instr_buf m) = 16%nat
  | _ => True
  end.

(** ** Vocabulary of the further properties *)

(** The state of the random source after [k] more draws, and the value of
    the draw made [j] draws from now. *)
Fixpoint advance {RandState} (rand : RandState -> Z * RandState)
    (k : nat) (r : RandState) : RandState :=
  match k with
  | O => r
  | S k' => advance rand k' (snd (rand r))
  end.

Definition draw {RandState} (rand : RandState -> Z * RandState)
    (r : RandState) (j : nat) : Z :=
  fst (rand (advance rand j r)).

(** How many random words the escape switch draws for a selector value. *)
Definition escape_draws (sel : Z) : nat :=
  match sel with
  | 0 | 1 | 2 | 3 | 4 => 0%nat
  | 17 | 18 | 19 | 20 | 21 | 22 => 1%nat
  | _ => 2%nat
  end.

(** A run of [n] prefix bytes, taken from the table at the indices given
    by the next [n] draws. *)
Definition prefix_run {RandState} (rand : RandState -> Z * RandState)
    (r : RandState) (is_64bit : bool) (n : nat) : list byte :=
  map (fun j => array_get prefix_collection
                  (to_size_t (draw rand r j)
                   mod (if is_64bit then sizeof_prefix_collection
                        else sizeof_prefix_collection - 16)))
      (seq 0 n).

(** A run of [n] tail bytes: the low bytes of the next [n] draws. *)
Definition tail_run {RandState} (rand : RandState -> Z * RandState)
    (r : RandState) (n : nat) : list byte :=
  map (fun j => byte.of_Z (Z.land (draw rand r j) 0xFF)) (seq 0 n).

(** The escape sequence for selector value [sel], its random words being
    the next draws. *)
Definition escape_run {RandState} (rand : RandState -> Z * RandState)
    (r : RandState) (sel : Z) : list byte :=
  nth (Z.to_nat sel)
      (escape_table (to_uint32 (draw rand r 0)) (to_uint32 (draw rand r 1))) [].

(** The candidate as an expression in the draws: the count draw, the
    prefix run, the selector draw, the escape sequence, the tail. *)
Definition candidate {RandState} (rand : RandState -> Z * RandState)
    (is_64bit : bool) (r : RandState) : list byte :=
  let np := Z.to_nat (prefix_count (Z.rem (draw rand r 0) 254)) in
  let sel := Z.rem (draw rand r (1 + np)) 50 in
  let esc := escape_run rand (advance rand (2 + np) r) sel in
  prefix_run rand (advance rand 1 r) is_64bit np
  ++ esc
  ++ tail_run rand (advance rand (2 + np + escape_draws sel) r)
       (64 - np - length esc).

(** The number of draws that one call of the generator makes. *)
Definition candidate_draws {RandState} (rand : RandState -> Z * RandState)
    (r : RandState) : nat :=
  let np := Z.to_nat (prefix_count (Z.rem (draw rand r 0) 254)) in
  let sel := Z.rem (draw rand r (1 + np)) 50 in
  let esc := escape_run rand (advance rand (2 + np) r) sel in
  (2 + np + escape_draws sel + (64 - np - length esc))%nat.

(** Reading a diagnostic block back: the byte that a text of two
    upper-case hexadecimal digits and a space spells, and the bytes that
    the texts of a trace spell. *)
Definition read_hex_byte (s : string) : option byte :=
  match s with
  | String hi (String lo (String sp EmptyString)) =>
      match hex_value hi, hex_value lo with
      | Some h, Some l =>
          if Ascii.eqb sp " " then Some (byte.of_Z (16 * h + l)) else None
      | _, _ => None
      end
  | _ => None
  end.

Fixpoint read_report (t : list event) : list byte :=
  match t with
  | [] => []
  | EvPrintf s :: t' =>
      match read_hex_byte s with
      | Some b => b :: read_report t'
      | None => read_report t'
      end
  | _ :: t' => read_report t'
  end.

(** The breadcrumbs due after [passed_tests] passed tests: a dot per
    million, with a count line per ten million, and a flush. *)
Definition crumbs (passed_tests : Z) : list event :=
  if passed_tests mod 1000000 =? 0 then
    EvPrintf "."
    :: (if passed_tests mod 10000000 =? 0
        then [EvPrintf ("[ " ++ fmt_4d (passed_tests / 1000000)
                        ++ "M tests passed ]" ++ nl)%string]
        else [])
    ++ [EvFflush]
  else [].

Definition is_dot (e : event) : bool :=
  match e with
  | EvPrintf s => String.eqb s "."
  | _ => false
  end.

Definition is_count_line (e : event) : bool :=
  match e with
  | EvPrintf (String a (String b _)) => Ascii.eqb a "[" && Ascii.eqb b " "
  | _ => false
  end.

(** An event that ends the process. *)
Definition terminal (e : event) : bool :=
  match e with
  | EvExit _ | EvKilled _ => true
  | _ => false
  end.

(** The reserved-field byte taken from the word [rv]: all four bits of
    the field (mask 0x78) are ones when bits 8-9 of the word are zero,
    and the byte is the low byte of the word otherwise. *)
Definition vvvv_field_ok (rv : Z) (b : byte) : Prop :=
  (Z.land rv 0x300 = 0 -> Z.land (byte.unsigned b) 0x78 = 0x78)
  /\ (Z.land rv 0x300 <> 0 -> byte.unsigned b = rv mod 256).

(** The map-selector byte taken from the word [rv]: when bits 8-9 of the
    word are not both zero the bits [field] of the byte have the value
    [value], and otherwise the byte is the low byte of the word with the
    bits [flip] inverted. *)
Definition map_field_ok (rv field value flip : Z) (b : byte) : Prop :=
  (Z.land rv 0x300 <> 0 -> Z.land (byte.unsigned b) field = value)
  /\ (Z.land rv 0x300 = 0 -> byte.unsigned b = Z.lxor rv flip mod 256).

(** ** Library calls and signal safety *)

(** The C library functions that matter to the handler: the three that
    the program calls to report, and [write] and [_exit], which do the
    same work without the buffers of the standard streams. *)
Inductive libc_function : Type :=
| libc_printf
| libc_fflush
| libc_exit
| libc_write
| libc__exit.

(** POSIX's list of the functions that a signal handler may call, on
    these five: [write] and [_exit] are on the list; [printf], [fflush]
    and [exit] are not (they work on the buffers and locks of the
    standard streams, [printf] may allocate, and [exit] runs the
    [atexit] functions). *)
Definition async_signal_safe (f : libc_function) : bool :=
  match f with
  | libc_write | libc__exit => true
  | libc_printf | libc_fflush | libc_exit => false
  end.

(** The library call that an event of the trace records. *)
Definition library_call (e : event) : option libc_function :=
  match e with
  | EvPrintf _ => Some libc_printf
  | EvFflush => Some libc_fflush
  | EvExit _ => Some libc_exit
  | EvKilled _ | EvDecode _ _ _ _ => None
  end.

(** The events of [t] are calls of async-signal-safe functions only. *)
Definition only_async_signal_safe (t : list event) : Prop :=
  Forall (fun e => exists f, library_call e = Some f /\ async_signal_safe f = true) t.

(** What the handler adds to the trace of the process [w]. *)
Definition handler_events {RandState : Type} (s : signal) (w : World RandState)
    : list event :=
  drop (length (trace w)) (trace (snd (sigabrt_handler s w))).

(** * Facts about the generator *)

Lemma zseq_S lo n : zseq lo (S n) = lo :: zseq (lo + 1) n.
Proof.
  unfold zseq. simpl. f_equal; [lia|].
  rewrite <- seq_shift, map_map. apply map_ext. intros k. lia.
Qed.

Lemma zseq_length lo n : length (zseq lo n) = n.
Proof. unfold zseq. now rewrite length_map, length_seq. Qed.

Lemma zseq_app lo n m : zseq lo (n + m) = zseq lo n ++ zseq (lo + Z.of_nat n) m.
Proof.
  revert lo. induction n as [|n IH]; intros lo.
  - simpl. f_equal. lia.
  - change (S n + m)%nat with (S (n + m)). rewrite !zseq_S, IH. simpl.
    do 3 f_equal. lia.
Qed.

Lemma replay_app ws1 ws2 b : replay (ws1 ++ ws2) b = replay ws2 (replay ws1 b).
Proof. unfold replay. apply fold_left_app. Qed.

Lemma replay_length ws b : length (replay ws b) = length b.
Proof.
  revert b. induction ws as [|w ws IH]; intros b; [reflexivity|].
  simpl. rewrite IH. destruct (0 <=? fst w); [apply length_insert | reflexivity].
Qed.

Section GeneratorFacts.

Context {RandState : Type} (rand : RandState -> Z * RandState).

Lemma appends_ret {A} (a : A) (r : RandState) : appends (ret a) r a r [].
Proof. intros b w0. unfold ret. now rewrite app_nil_r. Qed.

Lemma appends_bind {A B} (m : Gen RandState A) (k : A -> Gen RandState B)
    r a r1 ws1 c r2 ws2 :
  appends m r a r1 ws1 -> appends (k a) r1 c r2 ws2 ->
  appends (bind m k) r c r2 (ws1 ++ ws2).
Proof.
  intros H1 H2 b w0. unfold bind. rewrite H1, H2.
  now rewrite replay_app, app_assoc.
Qed.

Lemma appends_do_rand r : appends (do_rand rand) r (fst (rand r)) (snd (rand r)) [].
Proof.
  intros b w0. unfold do_rand. simpl. destruct (rand r). simpl.
  now rewrite app_nil_r.
Qed.

Lemma appends_store off v (r : RandState) : appends (store off v) r tt r [(off, v)].
Proof. intros b w0. reflexivity. Qed.

Lemma appends_store_inc p v (r : RandState) :
  appends (store_inc p v) r (p + 1) r [(p, byte.of_Z v)].
Proof. intros b w0. reflexivity. Qed.

(** A loop whose body draws one number and stores one byte computed
    from it. *)
Lemma appends_rand_store_loop (off : Z -> Z) (val : Z -> byte) (P : byte -> Prop) :
  (forall v, P (val v)) ->
  forall n i r, exists r' ws,
    appends (for_loop n i (fun i => v <- do_rand rand ;; store (off i) (val v)))
            r tt r' ws
    /\ map fst ws = map off (zseq i n)
    /\ Forall P (map snd ws).
Proof.
  intros HP. induction n as [|n IH]; intros i r.
  - exists r, []. split; [apply appends_ret | split; [reflexivity | constructor]].
  - destruct (IH (i + 1) (snd (rand r))) as (r' & ws & Happ & Hoff & Hval).
    exists r', ((off i, val (fst (rand r))) :: ws).
    split; [| split].
    + simpl for_loop.
      change ((off i, val (fst (rand r))) :: ws)
        with (([] ++ [(off i, val (fst (rand r)))]) ++ ws).
      eapply appends_bind; [|exact Happ].
      eapply appends_bind; [apply appends_do_rand | apply appends_store].
    + rewrite zseq_S. simpl. now rewrite Hoff.
    + simpl. constructor; [apply HP | exact Hval].
Qed.

(** Every index that [generate_prefix_bytes] computes is inside the
    table. *)
Lemma table_index_in_range (r m : Z) :
  0 < m <= sizeof_prefix_collection ->
  exists b, prefix_collection !! Z.to_nat (to_size_t r mod m) = Some b.
Proof.
  intros Hm. apply lookup_lt_is_Some_2.
  pose proof (Z.mod_pos_bound (to_size_t r) m ltac:(lia)).
  unfold sizeof_prefix_collection in Hm. lia.
Qed.

Lemma legacy_prefix_not_rex (r : Z) :
  is_rex (array_get prefix_collection
            (to_size_t r mod (sizeof_prefix_collection - 16))) = false.
Proof.
  pose proof (Z.mod_pos_bound (to_size_t r) (sizeof_prefix_collection - 16)
                ltac:(reflexivity)) as Hi.
  set (i := to_size_t r mod (sizeof_prefix_collection - 16)) in *.
  assert (Hall : Forall (fun b => is_rex b = false)
                   (take (Z.to_nat (sizeof_prefix_collection - 16)) prefix_collection))
    by (vm_compute; repeat constructor).
  rewrite Forall_lookup in Hall.
  unfold array_get.
  destruct (prefix_collection !! Z.to_nat i) as [b|] eqn:E.
  - apply (Hall (Z.to_nat i) b). rewrite lookup_take_lt; [exact E|]. lia.
  - reflexivity.
Qed.

Lemma generate_prefix_bytes_appends dst n is_64bit (r : RandState) :
  exists r' ws,
    appends (generate_prefix_bytes rand dst n is_64bit) r tt r' ws
    /\ map fst ws = zseq dst (Z.to_nat n)
    /\ (is_64bit = false -> Forall (fun b => is_rex b = false) (map snd ws)).
Proof.
  unfold generate_prefix_bytes, for_range. rewrite Z.sub_0_r.
  assert (Hoff : forall k, map (fun i => dst + i) (zseq 0 k) = zseq dst k).
  { intros k. unfold zseq. rewrite map_map. apply map_ext. intros; lia. }
  destruct is_64bit.
  - destruct (appends_rand_store_loop (fun i => dst + i)
                (fun v => array_get prefix_collection
                            (to_size_t v mod sizeof_prefix_collection))
                (fun _ => True) (fun _ => I) (Z.to_nat n) 0 r)
      as (r' & ws & Happ & Hfst & _).
    exists r', ws. rewrite Hfst, Hoff. repeat split; [exact Happ | discriminate].
  - destruct (appends_rand_store_loop (fun i => dst + i)
                (fun v => array_get prefix_collection
                            (to_size_t v mod (sizeof_prefix_collection - 16)))
                (fun b => is_rex b = false) legacy_prefix_not_rex (Z.to_nat n) 0 r)
      as (r' & ws & Happ & Hfst & Hval).
    exists r', ws. rewrite Hfst, Hoff. repeat split; [exact Happ | intros _; exact Hval].
Qed.

(** The tail fill. *)
Lemma tail_fill_appends lo hi (r : RandState) :
  exists r' ws,
    appends (for_range lo hi (fun i => v <- do_rand rand ;; store_int i (Z.land v 0xFF)))
            r tt r' ws
    /\ map fst ws = zseq lo (Z.to_nat (hi - lo)).
Proof.
  unfold for_range.
  destruct (appends_rand_store_loop (fun i => i)
              (fun v => byte.of_Z (Z.land v 0xFF))
              (fun _ => True) (fun _ => I) (Z.to_nat (hi - lo)) lo r)
    as (r' & ws & Happ & Hfst & _).
  exists r', ws. split; [exact Happ|]. now rewrite Hfst, map_id.
Qed.

Ltac appends_auto :=
  repeat first
    [ progress cbv beta zeta
    | eapply appends_bind
    | apply appends_ret
    | apply appends_do_rand
    | apply appends_store_inc
    | apply appends_store ].

Ltac escape_leaf :=
  cbn beta iota zeta;
  do 3 eexists; split; [appends_auto |];
  cbn [app length map fst snd]; unfold zseq; cbn [seq map Z.of_nat];
  repeat split; try lia; repeat (f_equal; try lia).

(** The escape switch stores consecutive bytes from the cursor on, at
    most three of them, and returns the cursor behind them. *)
Lemma escape_switch_appends sel p (r : RandState) :
  exists r' ws p',
    appends (escape_switch rand sel p) r p' r' ws
    /\ map fst ws = zseq p (length ws)
    /\ p' = p + Z.of_nat (length ws)
    /\ (length ws <= 3)%nat.
Proof.
  unfold escape_switch.
  destruct sel as [|q|q];
    [ escape_leaf
    | repeat (try solve [escape_leaf]; destruct q as [q|q|]); solve [escape_leaf]
    | escape_leaf ].
Qed.

Lemma prefix_count_range r2 : 0 <= r2 <= 253 -> 0 <= prefix_count r2 <= 15.
Proof.
  intros H. unfold prefix_count. rewrite Z.shiftr_div_pow2 by lia.
  assert (0 <= r2 * r2 * r2 <= 253 * 253 * 253) by nia.
  change (2 ^ 20) with 1048576.
  split.
  - apply Z.div_pos; lia.
  - enough (r2 * r2 * r2 / 1048576 < 16) by lia.
    apply Z.div_lt_upper_bound; lia.
Qed.

Lemma generate_rand_instr_appends is_64bit (r : RandState) :
  exists r' ws,
    appends (generate_rand_instr rand is_64bit) r tt r' ws
    /\ (0 <= fst (rand r) -> map fst ws = zseq 0 64).
Proof.
  unfold generate_rand_instr.
  set (np := prefix_count (Z.rem (fst (rand r)) 254)).
  destruct (generate_prefix_bytes_appends 0 np is_64bit (snd (rand r)))
    as (r1 & ws1 & H1 & Ho1 & _).
  destruct (escape_switch_appends (Z.rem (fst (rand r1)) 50) (0 + np)
              (snd (rand r1))) as (r2 & ws2 & p' & H2 & Ho2 & Hp' & Hlen2).
  destruct (tail_fill_appends (p' - 0) 64 r2) as (r3 & ws3 & H3 & Ho3).
  exists r3, ([] ++ ws1 ++ [] ++ ws2 ++ ws3). split.
  - eapply appends_bind; [apply appends_do_rand|]. cbv beta zeta. fold np.
    eapply appends_bind; [exact H1|].
    eapply appends_bind; [apply appends_do_rand|].
    eapply appends_bind; [exact H2|]. exact H3.
  - intros Hnn.
    assert (Hnp : 0 <= np <= 15).
    { apply prefix_count_range.
      pose proof (Z.rem_bound_pos (fst (rand r)) 254 Hnn ltac:(lia)). lia. }
    simpl. rewrite !map_app, Ho1, Ho2, Ho3.
    replace 64%nat with (Z.to_nat np + (length ws2 + Z.to_nat (64 - (p' - 0))))%nat
      by lia.
    rewrite !zseq_app. do 2 f_equal; [f_equal; lia|].
    f_equal; lia.
Qed.

End GeneratorFacts.

(** Stores at the offsets 0, 1, 2, ... of an array, one per element,
    leave the stored values. *)
Lemma replay_fills (ws : list (Z * byte)) :
  forall done rest : list byte,
    map fst ws = zseq (Z.of_nat (length done)) (length rest) ->
    replay ws (done ++ rest) = done ++ map snd ws.
Proof.
  induction ws as [|[o v] ws IH]; intros done rest Hoff.
  - destruct rest; [reflexivity | discriminate].
  - destruct rest as [|x rest]; [discriminate|].
    change (length (x :: rest)) with (S (length rest)) in Hoff.
    rewrite zseq_S in Hoff. simpl in Hoff. injection Hoff as Ho Hrest.
    simpl. subst o.
    replace (0 <=? Z.of_nat (length done)) with true by (symmetry; apply Z.leb_le; lia).
    rewrite Nat2Z.id.
    replace (<[length done := v]> (done ++ x :: rest)) with ((done ++ [v]) ++ rest).
    + rewrite IH.
      * now rewrite <- app_assoc.
      * rewrite Hrest, length_app. simpl. f_equal. lia.
    + rewrite <- app_assoc. simpl.
      rewrite insert_app_r_alt by lia. now rewrite Nat.sub_diag.
Qed.

Lemma replay_whole (ws : list (Z * byte)) (b : list byte) :
  map fst ws = zseq 0 (length b) -> replay ws b = map snd ws.
Proof. intros H. apply (replay_fills ws [] b). exact H. Qed.

Lemma byte_of_Z_land_255 (x : Z) : byte.of_Z (Z.land x 0xFF) = byte.of_Z x.
Proof.
  apply byte.unsigned_inj. rewrite !byte.unsigned_of_Z. unfold byte.wrap.
  change 0xFF with (Z.ones 8). rewrite Z.land_ones by lia. apply Z.mod_mod. lia.
Qed.

Lemma byte_of_Z_lxor_land_255 (x y : Z) :
  byte.of_Z (Z.lxor (Z.land x 0xFF) y) = byte.of_Z (Z.lxor x y).
Proof.
  apply byte.unsigned_inj. rewrite !byte.unsigned_of_Z. unfold byte.wrap.
  rewrite <- !Z.land_ones by lia. change 0xFF with (Z.ones 8).
  apply Z.bits_inj'. intros n Hn.
  rewrite !Z.land_spec, !Z.lxor_spec, !Z.land_spec.
  destruct (Z.testbit x n), (Z.testbit y n), (Z.testbit (Z.ones 8) n); reflexivity.
Qed.

Section EscapeFacts.

Context {RandState : Type} (rand : RandState -> Z * RandState).

Lemma escape_bytes_of_appends sel (g : GenState RandState) p' r' ws bytes :
  appends (escape_switch rand sel 0) (rng g) p' r' ws ->
  map snd ws = bytes ->
  escape_bytes rand sel g = bytes.
Proof.
  intros Happ <-. unfold escape_bytes. destruct g as [r b w0]. simpl in *.
  rewrite Happ. simpl. now rewrite drop_app_length.
Qed.

Ltac escape_entry :=
  eapply escape_bytes_of_appends;
  [ cbv beta iota zeta delta [escape_switch];
    repeat first
      [ progress cbv beta zeta
      | apply appends_store_inc
      | apply appends_do_rand
      | apply appends_ret
      | eapply appends_bind ]
  | cbn [map snd app];
    unfold masked_if_flagged, forced_if_clear, c_true;
    repeat match goal with
           | |- context [Z.land ?v 768 =? 0] => destruct (Z.land v 768 =? 0)
           end;
    cbn [negb];
    rewrite ?byte_of_Z_land_255, ?byte_of_Z_lxor_land_255, ?Z.lor_0_r;
    reflexivity ].

(** What the switch stores, for every selector value. *)
Lemma escape_bytes_table (g : GenState RandState) :
  map (fun sel => escape_bytes rand sel g) (zseq 0 50)
  = escape_table (to_uint32 (fst (rand (rng g))))
                 (to_uint32 (fst (rand (snd (rand (rng g)))))).
Proof.
  unfold zseq, escape_table.
  cbn [seq map repeat app Z.of_nat Pos.of_succ_nat Pos.succ Z.add].
  repeat (f_equal; [escape_entry|]). f_equal. escape_entry.
Qed.

End EscapeFacts.

Lemma lcg_rand_nonneg (s : Z) : 0 <= fst (lcg_rand s).
Proof. unfold lcg_rand. simpl. apply Z.mod_pos_bound. lia. Qed.

Lemma is_rex_false (b : byte) :
  is_rex b = false -> ~ (0x40 <= byte.unsigned b <= 0x4F).
Proof.
  unfold is_rex. intros H [H1 H2].
  apply Z.leb_le in H1, H2. rewrite H1, H2 in H. discriminate.
Qed.

(** * The Prefix Byte Generator *)

(** C2: called with the 64-bit flag false, [generate_prefix_bytes] makes
    one store per requested byte, at the offsets [dst], [dst+1], ..., and
    no stored byte lies in the REX range 0x40..0x4F, whatever the count
    and whatever the random source returns: the index is taken modulo the
    table size less the 16 REX entries. *)
Theorem generate_prefix_bytes_legacy_no_rex
    {RandState : Type} (rand : RandState -> Z * RandState)
    (dst n : Z) (g : GenState RandState) :
  let g' := snd (generate_prefix_bytes rand dst n false g) in
  exists ws,
    writes g' = writes g ++ ws
    /\ buf g' = replay ws (buf g)
    /\ map fst ws = zseq dst (Z.to_nat n)
    /\ Forall (fun b => ~ (0x40 <= byte.unsigned b <= 0x4F)) (map snd ws).
Proof.
  destruct (generate_prefix_bytes_appends rand dst n false (rng g))
    as (r' & ws & Happ & Hoff & Hrex).
  exists ws. destruct g as [r b w0]. simpl in *. rewrite Happ. simpl.
  repeat split; [exact Hoff|].
  eapply Forall_impl; [apply Hrex; reflexivity|].
  intros b0. apply is_rex_false.
Qed.

(** * The Random Instruction Encoder *)

(** C3: one call of [generate_rand_instr] on a 64-byte array stores to
    the offsets 0, 1, ..., 63 in this order, each once and no other; the
    array then holds the stored values; the prefix count is between 0
    and 15; and the escape switch moves the cursor forward by the number
    of bytes it stores, at most three. *)
Theorem generate_rand_instr_writes_each_byte_once
    {RandState : Type} (rand : RandState -> Z * RandState)
    (rand_nonneg : forall s, 0 <= fst (rand s))
    (b : list byte) (is_64bit : bool) (r : RandState) :
  length b = 64%nat ->
  let g := call_generate_rand_instr rand b is_64bit r in
  map fst (writes g) = zseq 0 64
  /\ buf g = map snd (writes g)
  /\ length (buf g) = 64%nat
  /\ 0 <= prefix_count (Z.rem (fst (rand r)) 254) <= 15
  /\ (forall sel p g0,
        let res := escape_switch rand sel p g0 in
        p <= fst res <= p + 3
        /\ Z.of_nat (length (writes (snd res)))
           = Z.of_nat (length (writes g0)) + (fst res - p)).
Proof.
  intros Hlen g.
  destruct (generate_rand_instr_appends rand is_64bit r)
    as (r' & ws & Happ & Hoff).
  specialize (Hoff (rand_nonneg r)).
  assert (Hg : g = mkGen r' (replay ws b) ws).
  { unfold g, call_generate_rand_instr. now rewrite Happ. }
  rewrite Hg. simpl.
  assert (Hfill : replay ws b = map snd ws)
    by (apply replay_whole; now rewrite Hlen).
  split; [exact Hoff|]. split; [exact Hfill|].
  split; [now rewrite replay_length|]. split.
  - apply prefix_count_range.
    pose proof (rand_nonneg r).
    pose proof (Z.rem_bound_pos (fst (rand r)) 254 ltac:(lia) ltac:(lia)). lia.
  - intros sel p g0.
    destruct (escape_switch_appends rand sel p (rng g0))
      as (r2 & ws2 & p' & H2 & _ & Hp' & Hl).
    destruct g0 as [r0 b0 w0]. simpl in *. rewrite H2. simpl.
    rewrite length_app. lia.
Qed.

(** The same on the sample generator of the C standard, seeded with
    2021. *)
Lemma generate_rand_instr_writes_each_byte_once_witness :
  (forall s, 0 <= fst (lcg_rand s))
  /\ length (repeat x00 64) = 64%nat
  /\ let g := call_generate_rand_instr lcg_rand (repeat x00 64) true 2021 in
     map fst (writes g) = zseq 0 64
     /\ buf g = map snd (writes g)
     /\ length (buf g) = 64%nat
     /\ 0 <= prefix_count (Z.rem (fst (lcg_rand 2021)) 254) <= 15
     /\ (forall sel p g0,
           let res := escape_switch lcg_rand sel p g0 in
           p <= fst res <= p + 3
           /\ Z.of_nat (length (writes (snd res)))
              = Z.of_nat (length (writes g0)) + (fst res - p)).
Proof.
  split; [exact lcg_rand_nonneg|]. split; [reflexivity|].
  exact (generate_rand_instr_writes_each_byte_once
           lcg_rand lcg_rand_nonneg (repeat x00 64) true 2021 eq_refl).
Defined.

(** A run on scripted random values: the count draw 200 gives 7
    prefixes (the last one a REX byte, the flag being set), the selector
    draw 7 an EVEX sequence whose first word 0x1FF is masked and whose
    second word 0x0AB gets the pattern 0x78, and the tail takes the low
    bytes of the draws that follow. *)
Example generate_rand_instr_scripted_run :
  let g := call_generate_rand_instr scripted_rand (repeat x00 64) true
             [200; 0; 1; 2; 3; 16; 27; 43; 7; 0x1FF; 0x0AB; 0x123; 0xFFFF]%N in
  buf g = [x66; x67; xf2; xf3; x26; xf0; x4f; x62; xf7; xfb; x23; xff]
          ++ repeat x00 52
  /\ map fst (writes g) = zseq 0 64.
Proof. vm_compute. split; reflexivity. Qed.

(** * The prefix-count distribution *)

Lemma zseq_bounds lo n x : In x (zseq lo n) -> lo <= x < lo + Z.of_nat n.
Proof.
  unfold zseq. rewrite in_map_iff. intros (k & <- & Hk).
  apply in_seq in Hk. lia.
Qed.

Lemma prefix_count_in_range :
  Forall (fun r2 => 0 <= prefix_count r2 <= 15) (zseq 0 254).
Proof.
  apply Forall_forall. intros r2 Hin. apply list_elem_of_In, zseq_bounds in Hin.
  apply prefix_count_range. lia.
Qed.

Lemma filter_none {A} (f : A -> bool) (l : list A) :
  Forall (fun x => f x = false) l -> List.filter f l = [].
Proof.
  induction 1 as [|x l Hx _ IH]; [reflexivity|].
  simpl. now rewrite Hx.
Qed.

Lemma prefix_count_freq_tail (k : Z) : 16 <= k -> prefix_count_freq k = 0%nat.
Proof.
  intros Hk. unfold prefix_count_freq.
  rewrite filter_none; [reflexivity|].
  eapply Forall_impl; [exact prefix_count_in_range|].
  intros r2 Hr2. cbv beta in Hr2. apply Z.eqb_neq. lia.
Qed.

(** C4: among the 254 equally likely draws 0..253, the number of draws
    with prefix count [k] is 102, 26, 19, 15, 12, 11, 10, 9, 8, 7, 7, 7,
    6, 6, 6, 3 for [k] = 0..15; it never grows from a count to the next;
    every draw gives a count in 0..15; and more than half of the draws
    give a count of 0, 1 or 2. *)
Theorem prefix_count_freq_nonincreasing :
  map prefix_count_freq (zseq 0 16)
  = [102; 26; 19; 15; 12; 11; 10; 9; 8; 7; 7; 7; 6; 6; 6; 3]%nat
  /\ (forall k : nat,
        (prefix_count_freq (Z.of_nat (S k)) <= prefix_count_freq (Z.of_nat k))%nat)
  /\ Forall (fun r2 => 0 <= prefix_count r2 <= 15) (zseq 0 254)
  /\ (length (zseq 0 254)
      < 2 * (prefix_count_freq 0 + prefix_count_freq 1 + prefix_count_freq 2))%nat.
Proof.
  split; [vm_compute; reflexivity|]. split; [|split].
  - intros k.
    do 15 (destruct k as [|k]; [apply Nat.leb_le; vm_compute; reflexivity|]).
    rewrite prefix_count_freq_tail by lia. lia.
  - exact prefix_count_in_range.
  - apply Nat.ltb_lt. vm_compute. reflexivity.
Qed.

(** * The Escape-Sequence Selector *)


(** * The biased fields of the extended-prefix families *)

(** C6, as the code has it: the EVEX, VEX3 and XOP sequences take their
    second byte from a first random word, masked (with 0xF7 for EVEX, with
    0xE3 for VEX3 and XOP) exactly when bits 8-9 of that word are not both
    zero, XOP then flipping bit 3; their third byte is a second random
    word with 0x78 OR-ed in exactly when bits 8-9 of that second word are
    zero.  VEX2 has no map-selector byte: its second byte is its only
    random word, with 0x78 OR-ed in exactly when bits 8-9 of that word are
    zero. *)
Theorem escape_switch_biased_fields
    {RandState : Type} (rand : RandState -> Z * RandState)
    (g : GenState RandState) :
  let rv1 := to_uint32 (fst (rand (rng g))) in
  let rv2 := to_uint32 (fst (rand (snd (rand (rng g))))) in
  Forall (fun sel => escape_bytes rand sel g
                     = [x62; byte.of_Z (masked_if_flagged rv1 0xF7);
                        byte.of_Z (forced_if_clear rv2)]) (zseq 5 6)
  /\ Forall (fun sel => escape_bytes rand sel g
                        = [xc4; byte.of_Z (masked_if_flagged rv1 0xE3);
                           byte.of_Z (forced_if_clear rv2)]) (zseq 11 6)
  /\ Forall (fun sel => escape_bytes rand sel g
                        = [xc5; byte.of_Z (forced_if_clear rv1)]) (zseq 17 6)
  /\ Forall (fun sel => escape_bytes rand sel g
                        = [x8f; byte.of_Z (Z.lxor (masked_if_flagged rv1 0xE3) 8);
                           byte.of_Z (forced_if_clear rv2)]) (zseq 23 27).
Proof.
  intros rv1 rv2.
  pose proof (escape_bytes_table rand g) as Htab. fold rv1 rv2 in Htab.
  unfold escape_table in Htab.
  change (zseq 0 50) with (zseq 0 5 ++ zseq 5 6 ++ zseq 11 6 ++ zseq 17 6 ++ zseq 23 27)
    in Htab.
  rewrite !map_app in Htab.
  apply app_inj_1 in Htab as [_ Htab]; [|reflexivity].
  apply app_inj_1 in Htab as [H1 Htab]; [|reflexivity].
  apply app_inj_1 in Htab as [H2 Htab]; [|reflexivity].
  apply app_inj_1 in Htab as [H3 H4]; [|reflexivity].
  assert (Hrep : forall (l : list Z) (bs : list byte),
             map (fun sel => escape_bytes rand sel g) l = repeat bs (length l) ->
             Forall (fun sel => escape_bytes rand sel g = bs) l).
  { induction l as [|x l IH]; intros bs Hl; [constructor|].
    simpl in Hl. injection Hl as Hx Hl. constructor; [exact Hx | now apply IH]. }
  repeat split; apply Hrep; assumption.
Qed.

(** C6 does not hold as worded, on two counts.  For the EVEX sequence drawn
    with the words 0x0FF and 0x100, bits 8-9 of the first word are zero,
    and yet the third byte is 0x00: the pattern 0x78 is not in it.  For
    the VEX2 sequence drawn with the word 0x1FF, bits 8-9 of the word are
    not zero, and yet the byte after C5 is the whole low byte 0xFF of the
    word, nothing masked away, and no third byte follows. *)
Lemma escape_force_ignores_first_word :
  let g := mkGen [0xFF; 0x100]%N (repeat x00 64) [] in
  let g2 := mkGen [0x1FF]%N (repeat x00 64) [] in
  Z.land (to_uint32 (fst (scripted_rand (rng g)))) 0x300 = 0
  /\ escape_bytes scripted_rand 5 g = [x62; xff; x00]
  /\ Z.land (byte.unsigned x00) 0x78 <> 0x78
  /\ Z.land (to_uint32 (fst (scripted_rand (rng g2)))) 0x300 <> 0
  /\ escape_bytes scripted_rand 17 g2 = [xc5; xff].
Proof. vm_compute. repeat split; discriminate. Qed.

(** * The configuration draw of the main loop *)

Lemma land_3_mod (r : Z) : Z.land r 3 = r mod 4.
Proof. change 3 with (Z.ones 2). now rewrite Z.land_ones by lia. Qed.

Lemma land_3_cases (r : Z) :
  Z.land r 3 = 0 \/ Z.land r 3 = 1 \/ Z.land r 3 = 2 \/ Z.land r 3 = 3.
Proof. rewrite land_3_mod. pose proof (Z.mod_pos_bound r 4 ltac:(lia)). lia. Qed.



(** * The fault handler *)

(** [%02X] of a byte is two upper-case hexadecimal digits that spell the
    byte. *)
Lemma fmt_02X_byte (b : byte) :
  exists hi lo,
    fmt_02X (byte.unsigned b) = String hi (String lo EmptyString)
    /\ hex_value hi = Some (byte.unsigned b / 16)
    /\ hex_value lo = Some (byte.unsigned b mod 16).
Proof.
  exists (hex_digit (byte.unsigned b / 16)), (hex_digit (byte.unsigned b mod 16)).
  destruct b; vm_compute; repeat split.
Qed.

Section HandlerFacts.

Context {RandState : Type}.

Lemma print_bytes_spec (bytes : list byte) :
  forall n i (w : World RandState),
    (i + n <= length bytes)%nat ->
    print_bytes n i bytes w
    = (tt, mkWorld (w_rng w) (globals w) (handled w)
             (trace w ++ map (fun b => EvPrintf (fmt_02X (byte.unsigned b) ++ " ")%string)
                             (take n (drop i bytes)))).
Proof.
  induction n as [|n IH]; intros i w Hlen.
  - simpl. rewrite app_nil_r. now destruct w.
  - simpl print_bytes. unfold bind, emit. simpl. rewrite IH by lia. simpl.
    destruct (lookup_lt_is_Some_2 bytes i ltac:(lia)) as [b Hb].
    rewrite (drop_S _ _ _ Hb). simpl.
    rewrite <- app_assoc. simpl.
    unfold array_get. rewrite Nat2Z.id, Hb. reflexivity.
Qed.

(** What the handler does to the process. *)
Lemma sigabrt_handler_run (s : signal) (w : World RandState) :
  length (instr_buf (globals w)) = 16%nat ->
  sigabrt_handler s w
  = (tt, mkWorld (w_rng w) (globals w) (handled w)
           (trace w ++ handler_report s (machine_mode_int (globals w))
                         (fmt_s (machine_mode_str (globals w)))
                         (instr_buf (globals w)))).
Proof.
  intros Hlen. cbv beta iota zeta delta [sigabrt_handler bind emit get_globals].
  rewrite print_bytes_spec by (simpl; lia). simpl.
  rewrite drop_0, firstn_all2 by lia.
  unfold handler_report. do 2 f_equal.
  rewrite <- !app_assoc. simpl. destruct s; reflexivity.
Qed.

End HandlerFacts.

(** C7: for every signal and every state of the process in which the
    recorded buffer has its 16 bytes and a label has been recorded, the
    handler prints a newline, the recorded mode number and label, the name
    of the signal, the 16 recorded bytes, each as exactly two upper-case
    hexadecimal digits and a space, and a newline; then it flushes; then
    it exits with [EXIT_FAILURE], and that is the last thing the process
    does.  What it prints is a function of the signal and of the three
    globals only, and it changes none of them. *)
Theorem sigabrt_handler_reports_memento
    {RandState : Type} (s : signal) (w : World RandState) (label : string) :
  length (instr_buf (globals w)) = 16%nat ->
  machine_mode_str (globals w) = Some label ->
  let w' := snd (sigabrt_handler s w) in
  trace w' = trace w ++ handler_report s (machine_mode_int (globals w)) label
                          (instr_buf (globals w))
  /\ (exists before, trace w' = before ++ [EvFflush; EvExit EXIT_FAILURE])
  /\ globals w' = globals w
  /\ w_rng w' = w_rng w
  /\ Forall (fun b => exists hi lo,
               fmt_02X (byte.unsigned b) = String hi (String lo EmptyString)
               /\ hex_value hi = Some (byte.unsigned b / 16)
               /\ hex_value lo = Some (byte.unsigned b mod 16))
            (instr_buf (globals w)).
Proof.
  intros Hlen Hlabel w'.
  assert (Hw' : w' = mkWorld (w_rng w) (globals w) (handled w)
                       (trace w ++ handler_report s (machine_mode_int (globals w)) label
                                     (instr_buf (globals w)))).
  { unfold w'. rewrite sigabrt_handler_run by exact Hlen. now rewrite Hlabel. }
  rewrite Hw'. simpl. split; [reflexivity|]. split; [|split; [reflexivity|split; [reflexivity|]]].
  - eexists. unfold handler_report.
    change [EvPrintf nl; EvFflush; EvExit EXIT_FAILURE]
      with ([EvPrintf nl] ++ [EvFflush; EvExit EXIT_FAILURE]).
    rewrite !app_assoc. reflexivity.
  - apply Forall_forall. intros b _. apply fmt_02X_byte.
Qed.

(** The report for [SIGSEGV] in the sample process. *)
Lemma sigabrt_handler_reports_memento_witness :
  length (instr_buf (globals sample_world)) = 16%nat
  /\ machine_mode_str (globals sample_world) = Some "protected32"%string
  /\ trace (snd (sigabrt_handler SIGSEGV sample_world))
     = [ EvPrintf nl;
         EvPrintf ("Machine mode: 3 (protected32)" ++ nl)%string;
         EvPrintf ("Opcode at time of SIGSEGV:" ++ nl)%string;
         EvPrintf "C4 "; EvPrintf "E2 "; EvPrintf "7B "; EvPrintf "F7 ";
         EvPrintf "90 "; EvPrintf "90 "; EvPrintf "90 "; EvPrintf "90 ";
         EvPrintf "90 "; EvPrintf "90 "; EvPrintf "90 "; EvPrintf "90 ";
         EvPrintf "90 "; EvPrintf "90 "; EvPrintf "90 "; EvPrintf "90 ";
         EvPrintf nl; EvFflush; EvExit EXIT_FAILURE ].
Proof.
  split; [reflexivity|]. split; [reflexivity|].
  exact (proj1 (sigabrt_handler_reports_memento SIGSEGV sample_world
                  "protected32"%string eq_refl eq_refl)).
Defined.

(** ** The library calls of the handler *)

Lemma print_bytes_calls {RandState : Type} (bytes : list byte) :
  forall n i (w : World RandState),
    exists t,
      print_bytes n i bytes w
      = (tt, mkWorld (w_rng w) (globals w) (handled w) (trace w ++ t))
      /\ map library_call t = repeat (Some libc_printf) n.
Proof.
  induction n as [|n IH]; intros i w.
  - exists []. simpl. rewrite app_nil_r. now destruct w.
  - simpl print_bytes. unfold bind, emit.
    match goal with
    | |- context [print_bytes n (S i) bytes ?w1] =>
        destruct (IH (S i) w1) as (t & -> & Hcalls)
    end.
    eexists (_ :: t). cbn [fst snd w_rng globals handled trace].
    split; [now rewrite <- app_assoc|].
    cbn [map library_call repeat]. now rewrite Hcalls.
Qed.

(** The handler, on any process: the library calls it makes, and that it
    leaves the rest of the process as it was. *)
Lemma sigabrt_handler_calls {RandState : Type} (s : signal) (w : World RandState) :
  exists t,
    sigabrt_handler s w
    = (tt, mkWorld (w_rng w) (globals w) (handled w) (trace w ++ t))
    /\ map library_call t
       = repeat (Some libc_printf) 20 ++ [Some libc_fflush; Some libc_exit].
Proof.
  cbv beta iota zeta delta [sigabrt_handler bind emit get_globals].
  cbn [fst snd w_rng globals handled trace].
  match goal with
  | |- context [print_bytes 16 0 ?bs ?w1] =>
      destruct (print_bytes_calls bs 16 0 w1) as (t & -> & Hcalls)
  end.
  cbn [fst snd w_rng globals handled trace].
  eexists (_ :: _ :: _ :: t ++ [_; _; _]). split.
  - do 2 f_equal. rewrite <- !app_assoc. reflexivity.
  - cbn [map library_call]. rewrite map_app, Hcalls. reflexivity.
Qed.

Lemma handler_events_calls {RandState : Type} (s : signal) (w : World RandState) :
  map library_call (handler_events s w)
  = repeat (Some libc_printf) 20 ++ [Some libc_fflush; Some libc_exit].
Proof.
  unfold handler_events.
  destruct (sigabrt_handler_calls s w) as (t & -> & Hcalls).
  cbn [snd trace]. now rewrite drop_app_length.
Qed.

(** C10, counterexample: in the sample process the handler for
    [SIGSEGV] makes 22 library calls, 20 of [printf], one of [fflush]
    and one of [exit]; not one of them is a call of an async-signal-safe
    function, so the handler does not perform safe operations only. *)
Lemma sigabrt_handler_calls_unsafe_functions :
  map library_call (handler_events SIGSEGV sample_world)
  = repeat (Some libc_printf) 20 ++ [Some libc_fflush; Some libc_exit]
  /\ forallb (fun e => match library_call e with
                       | Some f => negb (async_signal_safe f)
                       | None => false
                       end)
             (handler_events SIGSEGV sample_world) = true
  /\ ~ only_async_signal_safe (handler_events SIGSEGV sample_world).
Proof.
  split; [reflexivity|]. split; [reflexivity|].
  unfold only_async_signal_safe. intros Hsafe.
  assert (Hsafe' : Forall (fun o => exists f, o = Some f /\ async_signal_safe f = true)
                     (map library_call (handler_events SIGSEGV sample_world)))
    by (apply List.Forall_map; exact Hsafe).
  rewrite handler_events_calls in Hsafe'.
  apply List.Forall_inv in Hsafe'. destruct Hsafe' as (f & Hf & Hs).
  injection Hf as <-. discriminate Hs.
Qed.

(** C10, as amended: for every signal and every state of the process at
    which the fault may occur (whatever the globals hold at that moment),
    the library calls of the handler are 20 calls of [printf], then
    [fflush], then [exit], and nothing else: so the handler calls no
    allocation function itself; it leaves the globals, the random source
    and the installed handlers as they are; but not one of its calls is a
    call of an async-signal-safe function. *)
Theorem sigabrt_handler_calls_stdio_only
    {RandState : Type} (s : signal) (w : World RandState) :
  map library_call (handler_events s w)
  = repeat (Some libc_printf) 20 ++ [Some libc_fflush; Some libc_exit]
  /\ Forall (fun e => exists f, library_call e = Some f /\ async_signal_safe f = false)
            (handler_events s w)
  /\ trace (snd (sigabrt_handler s w)) = trace w ++ handler_events s w
  /\ globals (snd (sigabrt_handler s w)) = globals w
  /\ w_rng (snd (sigabrt_handler s w)) = w_rng w
  /\ handled (snd (sigabrt_handler s w)) = handled w.
Proof.
  split; [apply handler_events_calls|]. split.
  - apply (proj1 (List.Forall_map library_call
                    (fun o => exists f, o = Some f /\ async_signal_safe f = false)
                    (handler_events s w))).
    rewrite handler_events_calls.
    repeat constructor; eexists; (split; [reflexivity|reflexivity]).
  - unfold handler_events.
    destruct (sigabrt_handler_calls s w) as (t & -> & _).
    cbn [snd trace globals w_rng handled]. rewrite drop_app_length.
    repeat split.
Qed.

(** * The main loop *)

Lemma submissions_app (t1 t2 : list event) :
  submissions (t1 ++ t2) = submissions t1 ++ submissions t2.
Proof.
  induction t1 as [|e t1 IH]; [reflexivity|].
  destruct e; simpl; now rewrite IH.
Qed.

Lemma submissions_quiet (t : list event) : Forall quiet t -> submissions t = [].
Proof.
  induction 1 as [|e t He _ IH]; [reflexivity|].
  destruct e; simpl in *; [exact IH .. | contradiction].
Qed.

Lemma decode_ok_quiet mmv zdm (t : list event) :
  Forall quiet t -> Forall (decode_ok mmv zdm) t.
Proof.
  intros H. eapply Forall_impl; [exact H|].
  intros e He. destruct e; simpl in *; auto; contradiction.
Qed.

Lemma handler_report_quiet s mode label bytes :
  Forall quiet (handler_report s mode label bytes).
Proof.
  unfold handler_report. repeat (apply Forall_app; split).
  - repeat constructor.
  - apply Forall_forall. intros e He. apply list_elem_of_fmap in He as (b & -> & _).
    exact I.
  - repeat constructor.
Qed.

Section LoopFacts.

Context {RandState : Type}.
Variable rand : RandState -> Z * RandState.
Variable srand : Z -> RandState.
Variable atoi : string -> Z.
Variable machine_mode_value : ZydisMachineMode -> Z.
Variable zydis_default_mode : ZydisDecoderMode -> bool.
Variable ZydisDecoderDecodeBuffer : ZydisDecoder -> list byte -> Z -> DecodeOutcome.

Abbreviation expected := (expected_memento machine_mode_value zydis_default_mode).
Abbreviation wrapped :=
  (wrapped_ZydisDecoderDecodeBuffer machine_mode_value zydis_default_mode
     ZydisDecoderDecodeBuffer).
Abbreviation body :=
  (loop_body rand machine_mode_value zydis_default_mode ZydisDecoderDecodeBuffer).
Abbreviation loop :=
  (fuzz_loop rand machine_mode_value zydis_default_mode ZydisDecoderDecodeBuffer).

(** The wrapper: the globals are set, then the decoder is called, and
    nothing but a report or a kill can follow the call. *)
Lemma wrapped_run_exact (d : decoder_ptr) (buffer : list byte) (len : Z)
    (w : World RandState) :
  length (instr_buf (globals w)) = 16%nat ->
  (16 <= length buffer)%nat ->
  let o := ZydisDecoderDecodeBuffer (decoders zydis_default_mode d) buffer len in
  wrapped d buffer len w
  = (o, mkWorld (w_rng w) (expected d buffer) (handled w)
          (trace w ++ EvDecode d buffer len (expected d buffer)
                      :: after_call (handled w) (expected d buffer) o)).
Proof.
  intros Hlen Hbuf o.
  assert (Hcpy : memcpy (instr_buf (globals w)) buffer 16 = take 16 buffer).
  { unfold memcpy. rewrite drop_ge by lia. apply app_nil_r. }
  destruct w as [r m h t]. simpl in Hlen, Hcpy.
  cbv beta iota zeta delta
    [wrapped_ZydisDecoderDecodeBuffer call_ZydisDecoderDecodeBuffer
       bind emit get_globals set_globals ret globals w_rng handled trace].
  simpl instr_buf. simpl machine_mode_int. rewrite Hcpy.
  fold (expected d buffer). fold o.
  destruct o as [st|s]; [reflexivity|].
  unfold after_call. destruct (existsb (signal_eqb s) h).
  - rewrite sigabrt_handler_run by (simpl; rewrite length_take; lia).
    simpl. now rewrite <- app_assoc.
  - simpl. now rewrite <- app_assoc.
Qed.

Lemma after_call_quiet h m o : Forall quiet (after_call h m o).
Proof.
  destruct o as [st|s]; simpl; [constructor|].
  destruct (existsb (signal_eqb s) h);
    [apply handler_report_quiet | repeat constructor].
Qed.

Lemma call_generate_rand_instr_run (b : list byte) is_64bit (r : RandState) :
  exists r' ws,
    call_generate_rand_instr rand b is_64bit r = mkGen r' (replay ws b) ws
    /\ (0 <= fst (rand r) -> map fst ws = zseq 0 64)
    /\ (forall b', call_generate_rand_instr rand b' is_64bit r
                   = mkGen r' (replay ws b') ws).
Proof.
  destruct (generate_rand_instr_appends rand is_64bit r) as (r' & ws & Happ & Hoff).
  exists r', ws. unfold call_generate_rand_instr.
  split; [now rewrite Happ|]. split; [exact Hoff|].
  intros b'. now rewrite Happ.
Qed.

Lemma call_generate_rand_instr_length (b : list byte) is_64bit (r : RandState) :
  length (buf (call_generate_rand_instr rand b is_64bit r)) = length b.
Proof.
  destruct (call_generate_rand_instr_run b is_64bit r) as (r' & ws & -> & _).
  apply replay_length.
Qed.

(** The generator does not care what the array held before. *)
Lemma call_generate_rand_instr_indep (b1 b2 : list byte) is_64bit (r : RandState) :
  0 <= fst (rand r) ->
  length b1 = 64%nat -> length b2 = 64%nat ->
  call_generate_rand_instr rand b1 is_64bit r
  = call_generate_rand_instr rand b2 is_64bit r.
Proof.
  intros Hnn H1 H2.
  destruct (call_generate_rand_instr_run b1 is_64bit r) as (r' & ws & -> & Hoff & Hany).
  rewrite (Hany b2). specialize (Hoff Hnn).
  rewrite !replay_whole; [reflexivity | now rewrite H2 | now rewrite H1].
Qed.

Lemma stack_array_length n junk : length (stack_array n junk) = n.
Proof. unfold stack_array. now rewrite length_map, length_seq. Qed.

Lemma breadcrumbs_run (passed_tests : Z) (w : World RandState) :
  exists t',
    breadcrumbs passed_tests w
    = (tt, mkWorld (w_rng w) (globals w) (handled w) (trace w ++ t'))
    /\ Forall quiet t'.
Proof.
  unfold breadcrumbs, bind, emit, ret. destruct w as [r m h t]. simpl.
  destruct (negb (c_true (Z.rem passed_tests 1000000)));
    [destruct (negb (c_true (Z.rem passed_tests 10000000)))|]; simpl;
    eexists; (split; [rewrite <- ?app_assoc; simpl; try reflexivity|]).
  - repeat constructor.
  - repeat constructor.
  - instantiate (1 := []). now rewrite app_nil_r.
  - constructor.
Qed.

(** One pass of the loop: a decoder is selected, a candidate is
    generated, the globals are set, the decoder is called; the pass ends
    the process exactly when the decoder raises a signal. *)
Lemma loop_body_run (i : Z) (junk : nat -> byte) (w : World RandState) :
  length (instr_buf (globals w)) = 16%nat ->
  exists bits d alive t',
    select_decoder (Z.land (fst (rand (w_rng w))) 3) = Some (bits, d)
    /\ let g := call_generate_rand_instr rand (stack_array 64 junk) (bits =? 64)
                  (snd (rand (w_rng w))) in
       let o := ZydisDecoderDecodeBuffer (decoders zydis_default_mode d) (buf g) 64 in
       body i junk w
       = (alive, mkWorld (rng g) (expected (d) (buf g)) (handled w)
                   (trace w ++ EvDecode d (buf g) 64 (expected d (buf g)) :: t'))
       /\ Forall quiet t'
       /\ length (buf g) = 64%nat
       /\ match o with
          | Returns _ => alive = true
          | Raises s =>
              alive = false
              /\ t' = after_call (handled w) (expected d (buf g)) (Raises s)
          end.
Proof.
  intros Hlen.
  assert (Hsel : exists bits d,
             select_decoder (Z.land (fst (rand (w_rng w))) 3) = Some (bits, d)).
  { destruct (land_3_cases (fst (rand (w_rng w)))) as [H|[H|[H|H]]];
      rewrite H; eexists _, _; reflexivity. }
  destruct Hsel as (bits & d & Hsel). exists bits, d.
  set (g := call_generate_rand_instr rand (stack_array 64 junk) (bits =? 64)
              (snd (rand (w_rng w)))).
  assert (Hg : length (buf g) = 64%nat).
  { unfold g. rewrite call_generate_rand_instr_length. apply stack_array_length. }
  pose proof (wrapped_run_exact d (buf g) 64
                (mkWorld (rng g) (globals w) (handled w) (trace w))
                Hlen ltac:(lia)) as Hw.
  cbv zeta in Hw. simpl in Hw.
  unfold loop_body, bind, main_rand, main_generate_rand_instr.
  destruct w as [r m h t]. simpl in *.
  destruct (rand r) as [v r1] eqn:Er. simpl in *. rewrite Hsel.
  cbn [w_rng globals handled trace]. fold g. rewrite Hw.
  destruct (ZydisDecoderDecodeBuffer (decoders zydis_default_mode d) (buf g) 64)
    as [st|s].
  - destruct (breadcrumbs_run (i + 1)
                (mkWorld (rng g) (expected d (buf g)) h
                   (t ++ EvDecode d (buf g) 64 (expected d (buf g)) :: [])))
      as (t2 & Hb & Hq2).
    simpl after_call. rewrite Hb. simpl. exists true, t2. simpl.
    split; [reflexivity|].
    split; [|split; [exact Hq2 | split; [exact Hg | reflexivity]]].
    unfold ret. do 2 f_equal. now rewrite <- app_assoc.
  - eexists false, _. simpl. split; [reflexivity|].
    split; [reflexivity|]. split; [|split; [exact Hg | split; reflexivity]].
    apply (after_call_quiet h (expected d (buf g)) (Raises s)).
Qed.

(** The loop keeps the globals equal to the memento of the last
    submission, and has them right at every call of the decoder. *)
Lemma fuzz_loop_invariant (m0 : Memento) (junk : Z -> nat -> byte) :
  forall n i (w : World RandState),
    length (instr_buf (globals w)) = 16%nat ->
    Forall (decode_ok machine_mode_value zydis_default_mode) (trace w) ->
    match last (submissions (trace w)) with
    | Some (d, b) => globals w = expected d b
    | None => globals w = m0
    end ->
    let w' := snd (loop n i junk w) in
    length (instr_buf (globals w')) = 16%nat
    /\ Forall (decode_ok machine_mode_value zydis_default_mode) (trace w')
    /\ match last (submissions (trace w')) with
       | Some (d, b) => globals w' = expected d b
       | None => globals w' = m0
       end.
Proof.
  induction n as [|n IH]; intros i w Hlen Hok Hlast; [simpl; auto|].
  destruct (loop_body_run i (junk i) w Hlen)
    as (bits & d & alive & t' & _ & Hbody & Hq & Hg & _).
  cbv zeta in Hbody, Hg.
  set (g := call_generate_rand_instr rand (stack_array 64 (junk i)) (bits =? 64)
              (snd (rand (w_rng w)))) in *.
  set (w1 := mkWorld (rng g) (expected d (buf g)) (handled w)
               (trace w ++ EvDecode d (buf g) 64 (expected d (buf g)) :: t')) in *.
  assert (H1 : length (instr_buf (globals w1)) = 16%nat).
  { simpl. rewrite length_take. lia. }
  assert (H2 : Forall (decode_ok machine_mode_value zydis_default_mode) (trace w1)).
  { simpl. apply Forall_app. split; [exact Hok|].
    constructor; [split; [reflexivity | exact H1] | now apply decode_ok_quiet]. }
  assert (H3 : match last (submissions (trace w1)) with
               | Some (d, b) => globals w1 = expected d b
               | None => globals w1 = m0
               end).
  { simpl. rewrite submissions_app. simpl. rewrite (submissions_quiet t' Hq).
    now rewrite last_snoc. }
  simpl fuzz_loop. unfold bind. rewrite Hbody.
  destruct alive; [now apply IH | simpl; auto].
Qed.


Section Replay.

Hypothesis rand_nonneg : forall s, 0 <= fst (rand s).

Lemma loop_body_junk_indep i junk1 junk2 (w : World RandState) :
  body i junk1 w = body i junk2 w.
Proof.
  unfold loop_body, bind, main_rand, main_generate_rand_instr.
  destruct (rand (w_rng w)) as [v r1].
  destruct (select_decoder (Z.land v 3)) as [[bits d]|]; [|reflexivity].
  cbn [w_rng globals handled trace].
  rewrite (call_generate_rand_instr_indep (stack_array 64 junk1)
             (stack_array 64 junk2)); auto using stack_array_length.
Qed.

Lemma fuzz_loop_junk_indep junk1 junk2 :
  forall n i (w : World RandState), loop n i junk1 w = loop n i junk2 w.
Proof.
  induction n as [|n IH]; intros i w; [reflexivity|].
  simpl. unfold bind. rewrite (loop_body_junk_indep i (junk1 i) (junk2 i)).
  destruct (body i (junk2 i) w) as [[|] w1]; [apply IH | reflexivity].
Qed.

(** What the loop submits is a prefix of the candidate stream of the
    random source. *)
Lemma fuzz_loop_stream (junk : Z -> nat -> byte) :
  forall n i (w : World RandState),
    length (instr_buf (globals w)) = 16%nat ->
    exists k, (k <= n)%nat
      /\ submissions (trace (snd (loop n i junk w)))
         = submissions (trace w) ++ take k (candidate_stream rand n (w_rng w)).
Proof.
  induction n as [|n IH]; intros i w Hlen.
  - exists 0%nat. simpl. now rewrite app_nil_r.
  - destruct (loop_body_run i (junk i) w Hlen)
      as (bits & d & alive & t' & Hsel & Hbody & Hq & Hg & _).
    cbv zeta in Hbody, Hg.
    simpl fuzz_loop. unfold bind. rewrite Hbody.
    simpl candidate_stream.
    destruct (rand (w_rng w)) as [v r1]. simpl in Hsel, Hbody, Hg |- *.
    rewrite Hsel.
    rewrite (call_generate_rand_instr_indep (repeat x00 64)
               (stack_array 64 (junk i)))
      by (auto using stack_array_length, repeat_length).
    set (g := call_generate_rand_instr rand (stack_array 64 (junk i))
                (bits =? 64) r1) in *.
    destruct alive.
    + edestruct (IH (i + 1)
                   (mkWorld (rng g) (expected d (buf g)) (handled w)
                      (trace w ++ EvDecode d (buf g) 64 (expected d (buf g)) :: t')))
        as (k & Hk & Hsub).
      { simpl. rewrite length_take. lia. }
      exists (S k). split; [lia|]. rewrite Hsub. simpl.
      rewrite submissions_app. simpl. rewrite (submissions_quiet t' Hq).
      now rewrite <- app_assoc.
    + exists 1%nat. split; [lia|]. simpl.
      rewrite submissions_app. simpl. rewrite (submissions_quiet t' Hq).
      now rewrite take_0.
Qed.

End Replay.

End LoopFacts.

(** * The Crash Context Recorder *)

(** C1: in a run of [main] with any iteration budget, any arguments, any
    decoder, any random source and any stack garbage, at every call of
    the external decoder the three globals hold the first 16 bytes of the
    buffer of that call, the mode number of its decoder and the label of
    that number; and when the run has ended the globals still hold the
    memento of the last submission (nothing writes them after the call),
    or their initial value if nothing was submitted. *)
Theorem memento_set_before_decoder_runs
    {RandState : Type} (rand : RandState -> Z * RandState) (srand : Z -> RandState)
    (atoi : string -> Z) (machine_mode_value : ZydisMachineMode -> Z)
    (zydis_default_mode : ZydisDecoderMode -> bool)
    (ZydisDecoderDecodeBuffer : ZydisDecoder -> list byte -> Z -> DecodeOutcome)
    (n : nat) (argv : list string) (junk : Z -> nat -> byte) (r0 : RandState) :
  let w := snd (main_with_budget rand srand atoi machine_mode_value
                  zydis_default_mode ZydisDecoderDecodeBuffer n argv junk
                  (initial_world r0)) in
  Forall (decode_ok machine_mode_value zydis_default_mode) (trace w)
  /\ match last (submissions (trace w)) with
     | Some (d, b) =>
         globals w = expected_memento machine_mode_value zydis_default_mode d b
     | None => globals w = globals (initial_world r0)
     end.
Proof.
  intros w. unfold w, main_with_budget, bind, install_sigabrt_handler. simpl.
  match goal with
  | |- context [fuzz_loop _ _ _ _ n 0 junk ?w1] =>
      pose proof (fuzz_loop_invariant rand machine_mode_value zydis_default_mode
                    ZydisDecoderDecodeBuffer (globals (initial_world r0)) junk n 0 w1
                    eq_refl (List.Forall_nil _) eq_refl) as (_ & Hok & Hlast);
      destruct (fuzz_loop rand machine_mode_value zydis_default_mode
                  ZydisDecoderDecodeBuffer n 0 junk w1) as [alive w2]
  end.
  simpl in Hok, Hlast. destruct alive; simpl.
  - split.
    + apply Forall_app. split; [exact Hok | repeat constructor].
    + rewrite submissions_app. simpl. rewrite app_nil_r. exact Hlast.
  - split; assumption.
Qed.


(** A run of eight passes with the sample generator of the C standard
    and a decoder that crashes on candidates starting with 0x66: the
    second candidate does, and the report shows its first 16 bytes. *)
Example fuzzer_run_reports_fault :
  let w := snd (main_with_budget lcg_rand (fun seed => seed) (fun _ => 7)
                  sample_mode_value (fun _ => false) sample_decoder
                  8 ["fuzz"%string] (fun _ _ => x00) (initial_world 99)) in
  map (fun sub => (fst sub, take 16 (snd sub))) (submissions (trace w))
  = [ (decoder_x86_16,
       [x26; x65; x8f; x0b; xad; x1d; x5a; xda; xe5; xac; x1b; x1e; x5f; x13; x70; x79]);
      (decoder_x86_16,
       [x66; x2e; x62; x44; xb3; x02; x5e; x96; x5f; xb3; xea; x6d; xac; xd4; x2d; x81]) ]
  /\ drop 2 (trace w)
     = [ EvPrintf nl;
         EvPrintf ("Machine mode: 4 (protected16)" ++ nl)%string;
         EvPrintf ("Opcode at time of SIGSEGV:" ++ nl)%string;
         EvPrintf "66 "; EvPrintf "2E "; EvPrintf "62 "; EvPrintf "44 ";
         EvPrintf "B3 "; EvPrintf "02 "; EvPrintf "5E "; EvPrintf "96 ";
         EvPrintf "5F "; EvPrintf "B3 "; EvPrintf "EA "; EvPrintf "6D ";
         EvPrintf "AC "; EvPrintf "D4 "; EvPrintf "2D "; EvPrintf "81 ";
         EvPrintf nl; EvFflush; EvExit EXIT_FAILURE ].
Proof. vm_compute. split; reflexivity. Qed.

(** * Replay from the seed *)

(** C8: with the same random source, seed and iteration budget, a run
    does not depend on what the stack buffer or the random source held
    before: two such runs with the same decoder end in the same state,
    with the same trace of submissions and output.  And whatever the
    decoder does, the decoders and candidates submitted are the first
    ones of a stream that is a function of the seeded random source
    alone. *)
Theorem run_determined_by_seed
    {RandState : Type} (rand : RandState -> Z * RandState)
    (rand_nonneg : forall s, 0 <= fst (rand s))
    (srand : Z -> RandState)
    (atoi : string -> Z) (machine_mode_value : ZydisMachineMode -> Z)
    (zydis_default_mode : ZydisDecoderMode -> bool)
    (decoder1 decoder2 : ZydisDecoder -> list byte -> Z -> DecodeOutcome)
    (n : nat) (argv : list string)
    (junk1 junk2 : Z -> nat -> byte) (r1 r2 : RandState) :
  let run := main_with_budget rand srand atoi machine_mode_value zydis_default_mode in
  let stream := candidate_stream rand n (srand (seed_of atoi argv)) in
  snd (run decoder1 n argv junk1 (initial_world r1))
  = snd (run decoder1 n argv junk2 (initial_world r2))
  /\ exists k1 k2,
       (k1 <= n)%nat /\ (k2 <= n)%nat
       /\ submissions (trace (snd (run decoder1 n argv junk1 (initial_world r1))))
          = take k1 stream
       /\ submissions (trace (snd (run decoder2 n argv junk2 (initial_world r2))))
          = take k2 stream.
Proof.
  intros run stream.
  assert (Hstream : forall dec junk r,
             exists k, (k <= n)%nat
               /\ submissions (trace (snd (run dec n argv junk (initial_world r))))
                  = take k stream).
  { intros dec junk r. unfold run, main_with_budget, bind, install_sigabrt_handler.
    simpl.
    match goal with
    | |- context [fuzz_loop _ _ _ _ n 0 junk ?w1] =>
        destruct (fuzz_loop_stream rand machine_mode_value zydis_default_mode dec
                    rand_nonneg junk n 0 w1 eq_refl) as (k & Hk & Hsub);
        destruct (fuzz_loop rand machine_mode_value zydis_default_mode dec n 0 junk w1)
          as [alive w2]
    end.
    exists k. split; [exact Hk|]. simpl in Hsub.
    destruct alive; simpl; [rewrite submissions_app; simpl; rewrite app_nil_r|];
      exact Hsub. }
  split.
  - unfold run, main_with_budget, bind, install_sigabrt_handler. simpl.
    now rewrite (fuzz_loop_junk_indep rand machine_mode_value zydis_default_mode
                   decoder1 rand_nonneg junk1 junk2).
  - destruct (Hstream decoder1 junk1 r1) as (k1 & Hk1 & H1).
    destruct (Hstream decoder2 junk2 r2) as (k2 & Hk2 & H2).
    exists k1, k2. auto.
Qed.

(** Three passes on the sample generator of the C standard, with zeroed
    and with all-ones stack garbage, with a crashing and with a sound
    decoder. *)
Lemma run_determined_by_seed_witness :
  (forall s, 0 <= fst (lcg_rand s))
  /\ let run := main_with_budget lcg_rand (fun seed => seed) (fun _ => 2021)
                  sample_mode_value (fun _ => false) in
     let stream := candidate_stream lcg_rand 3 2021 in
     snd (run sample_decoder 3%nat ["fuzz"; "2021"]%string (fun _ _ => x00)
            (initial_world 0))
     = snd (run sample_decoder 3%nat ["fuzz"; "2021"]%string (fun _ _ => xff)
              (initial_world 1))
     /\ exists k1 k2,
          (k1 <= 3)%nat /\ (k2 <= 3)%nat
          /\ submissions (trace (snd (run sample_decoder 3%nat ["fuzz"; "2021"]%string
                                        (fun _ _ => x00) (initial_world 0))))
             = take k1 stream
          /\ submissions (trace (snd (run sound_decoder 3%nat ["fuzz"; "2021"]%string
                                        (fun _ _ => xff) (initial_world 1))))
             = take k2 stream.
Proof.
  split; [exact lcg_rand_nonneg|].
  exact (run_determined_by_seed lcg_rand lcg_rand_nonneg (fun seed => seed)
           (fun _ => 2021) sample_mode_value (fun _ => false)
           sample_decoder sound_decoder 3 ["fuzz"; "2021"]%string
           (fun _ _ => x00) (fun _ _ => xff) 0 1).
Defined.

(** * Further properties of the generator *)

Lemma zseq_in lo n x : lo <= x < lo + Z.of_nat n -> In x (zseq lo n).
Proof.
  intros H. unfold zseq. apply in_map_iff. exists (Z.to_nat (x - lo)).
  split; [lia|]. apply in_seq. lia.
Qed.

Lemma map_seq_S {A} (f : nat -> A) n :
  map f (seq 0 (S n)) = f 0%nat :: map (fun j => f (S j)) (seq 0 n).
Proof. simpl. f_equal. now rewrite <- seq_shift, map_map. Qed.

Section DrawFacts.

Context {RandState : Type} (rand : RandState -> Z * RandState).

Lemma advance_add a b (r : RandState) :
  advance rand (a + b) r = advance rand b (advance rand a r).
Proof. revert r. induction a as [|a IH]; intros r; [reflexivity | apply IH]. Qed.

Lemma advance_snd k (r : RandState) :
  snd (rand (advance rand k r)) = advance rand (S k) r.
Proof. revert r. induction k as [|k IH]; intros r; [reflexivity | apply IH]. Qed.

Lemma draw_advance a j (r : RandState) :
  draw rand (advance rand a r) j = draw rand r (a + j).
Proof. unfold draw. now rewrite advance_add. Qed.

Lemma appends_eq {A} (m : Gen RandState A) r a r' ws a' r'' ws' :
  appends m r a r' ws -> a = a' -> r' = r'' -> ws = ws' ->
  appends m r a' r'' ws'.
Proof. intros H <- <- <-. exact H. Qed.

(** A loop that draws one number and stores one byte per pass: the
    stores and the state of the source, in terms of the draws. *)
Lemma appends_rand_store_loop_exact (off : Z -> Z) (val : Z -> byte) :
  forall n i (r : RandState),
    appends (for_loop n i (fun i => v <- do_rand rand ;; store (off i) (val v)))
            r tt (advance rand n r)
            (map (fun j => (off (i + Z.of_nat j), val (draw rand r j))) (seq 0 n)).
Proof.
  induction n as [|n IH]; intros i r; [apply appends_ret|].
  rewrite map_seq_S. simpl for_loop.
  eapply appends_eq.
  - eapply appends_bind; [|apply (IH (i + 1) (snd (rand r)))].
    eapply appends_bind; [apply appends_do_rand | apply appends_store].
  - reflexivity.
  - reflexivity.
  - simpl. f_equal; [f_equal; f_equal; lia|].
    apply map_ext. intros j. f_equal. f_equal. lia.
Qed.

Lemma generate_prefix_bytes_exact dst n is_64bit (r : RandState) :
  exists ws,
    appends (generate_prefix_bytes rand dst n is_64bit) r tt
            (advance rand (Z.to_nat n) r) ws
    /\ map fst ws = zseq dst (Z.to_nat n)
    /\ map snd ws = prefix_run rand r is_64bit (Z.to_nat n).
Proof.
  unfold generate_prefix_bytes, for_range, prefix_run. rewrite Z.sub_0_r.
  destruct is_64bit; eexists; (split; [apply appends_rand_store_loop_exact|]);
    rewrite !map_map; simpl; (split; [|reflexivity]);
    unfold zseq; apply map_ext; intros; lia.
Qed.

Lemma tail_fill_exact lo hi (r : RandState) :
  exists ws,
    appends (for_range lo hi (fun i => v <- do_rand rand ;; store_int i (Z.land v 0xFF)))
            r tt (advance rand (Z.to_nat (hi - lo)) r) ws
    /\ map fst ws = zseq lo (Z.to_nat (hi - lo))
    /\ map snd ws = tail_run rand r (Z.to_nat (hi - lo)).
Proof.
  unfold for_range, tail_run. eexists. split.
  - apply (appends_rand_store_loop_exact (fun i => i)
             (fun v => byte.of_Z (Z.land v 0xFF))).
  - rewrite !map_map. simpl. split; reflexivity.
Qed.

Ltac escape_exact_entry :=
  cbv [escape_run escape_table nth repeat app Z.to_nat Pos.to_nat Pos.iter_op
         Nat.add length combine zseq seq map Z.of_nat Pos.of_succ_nat Pos.succ
         escape_draws advance draw];
  eapply appends_eq;
  [ cbv beta iota zeta delta [escape_switch];
    repeat first
      [ progress cbv beta zeta
      | apply appends_store_inc
      | apply appends_do_rand
      | apply appends_ret
      | eapply appends_bind ]
  | lia
  | reflexivity
  | cbn [app];
    unfold masked_if_flagged, forced_if_clear, c_true;
    repeat match goal with
           | |- context [Z.land ?v 768 =? 0] => destruct (Z.land v 768 =? 0)
           end;
    cbn [negb];
    rewrite ?byte_of_Z_land_255, ?byte_of_Z_lxor_land_255, ?Z.lor_0_r;
    repeat (f_equal; try lia) ].

(** The escape switch, for each of the 50 selector values: the stores,
    the cursor and the state of the source, in terms of the draws. *)
Lemma escape_switch_exact_all p (r : RandState) :
  Forall (fun sel =>
            appends (escape_switch rand sel p) r
                    (p + Z.of_nat (length (escape_run rand r sel)))
                    (advance rand (escape_draws sel) r)
                    (combine (zseq p (length (escape_run rand r sel)))
                             (escape_run rand r sel)))
         (zseq 0 50).
Proof.
  let l := eval vm_compute in (zseq 0 50) in change (zseq 0 50) with l.
  repeat (apply List.Forall_cons; [escape_exact_entry|]). apply List.Forall_nil.
Qed.

Lemma escape_switch_exact sel p (r : RandState) :
  0 <= sel < 50 ->
  appends (escape_switch rand sel p) r
          (p + Z.of_nat (length (escape_run rand r sel)))
          (advance rand (escape_draws sel) r)
          (combine (zseq p (length (escape_run rand r sel)))
                   (escape_run rand r sel)).
Proof.
  intros Hsel. pose proof (escape_switch_exact_all p r) as Hall.
  rewrite List.Forall_forall in Hall. apply Hall. apply zseq_in. lia.
Qed.

Lemma escape_run_length sel (r : RandState) :
  (length (escape_run rand r sel) <= 3)%nat.
Proof.
  unfold escape_run.
  destruct (nth_in_or_default (Z.to_nat sel)
              (escape_table (to_uint32 (draw rand r 0)) (to_uint32 (draw rand r 1))) [])
    as [Hin | ->]; [|simpl; lia].
  revert Hin. generalize (nth (Z.to_nat sel)
              (escape_table (to_uint32 (draw rand r 0)) (to_uint32 (draw rand r 1))) []).
  intros bs Hin. unfold escape_table in Hin. simpl in Hin.
  repeat (destruct Hin as [<- | Hin]; [simpl; lia|]). contradiction.
Qed.

Lemma map_fst_combine {A B} (l1 : list A) (l2 : list B) :
  length l1 = length l2 -> map fst (combine l1 l2) = l1.
Proof.
  revert l2. induction l1 as [|a l1 IH]; intros [|b l2] H; try discriminate;
    [reflexivity|]. simpl. f_equal. apply IH. now injection H.
Qed.

Lemma map_snd_combine {A B} (l1 : list A) (l2 : list B) :
  length l1 = length l2 -> map snd (combine l1 l2) = l2.
Proof.
  revert l2. induction l1 as [|a l1 IH]; intros [|b l2] H; try discriminate;
    [reflexivity|]. simpl. f_equal. apply IH. now injection H.
Qed.

(** One call of the generator, in terms of the draws. *)
Lemma generate_rand_instr_exact is_64bit (r : RandState) :
  0 <= draw rand r 0 ->
  0 <= draw rand r (1 + Z.to_nat (prefix_count (Z.rem (draw rand r 0) 254))) ->
  exists ws,
    appends (generate_rand_instr rand is_64bit) r tt
            (advance rand (candidate_draws rand r) r) ws
    /\ map fst ws = zseq 0 64
    /\ map snd ws = candidate rand is_64bit r.
Proof.
  intros Hd0 Hd1. unfold generate_rand_instr, candidate, candidate_draws.
  change (fst (rand r)) with (draw rand r 0).
  set (npz := prefix_count (Z.rem (draw rand r 0) 254)) in *.
  set (np := Z.to_nat npz) in *.
  assert (Hnp : 0 <= npz <= 15).
  { apply prefix_count_range.
    pose proof (Z.rem_bound_pos (draw rand r 0) 254 Hd0 ltac:(lia)). lia. }
  set (sel := Z.rem (draw rand r (1 + np)) 50).
  assert (Hsel : 0 <= sel < 50)
    by (apply Z.rem_bound_pos; [exact Hd1 | lia]).
  set (r3 := advance rand (2 + np) r).
  set (esc := escape_run rand r3 sel).
  pose proof (escape_run_length sel r3) as Hesc. fold esc in Hesc.
  destruct (generate_prefix_bytes_exact 0 npz is_64bit (advance rand 1 r))
    as (ws1 & H1 & Ho1 & Hv1). fold np in H1, Ho1, Hv1.
  pose proof (escape_switch_exact sel (0 + npz) r3 Hsel) as H2. fold esc in H2.
  destruct (tail_fill_exact (0 + npz + Z.of_nat (length esc) - 0) 64
              (advance rand (escape_draws sel) r3)) as (ws3 & H3 & Ho3 & Hv3).
  assert (Hn3 : Z.to_nat (64 - (0 + npz + Z.of_nat (length esc) - 0))
                = (64 - np - length esc)%nat) by lia.
  rewrite Hn3 in H3, Ho3, Hv3.
  assert (Hzl : length (zseq (0 + npz) (length esc)) = length esc)
    by apply zseq_length.
  exists ([] ++ ws1 ++ [] ++ combine (zseq (0 + npz) (length esc)) esc ++ ws3).
  split; [|split].
  - eapply appends_eq.
    + eapply appends_bind; [apply appends_do_rand|]. cbv beta zeta.
      eapply appends_bind; [exact H1|].
      eapply appends_bind; [apply appends_do_rand|]. cbv beta zeta.
      replace (Z.rem (fst (rand (advance rand np (advance rand 1 r)))) 50) with sel.
      2:{ unfold sel, draw. now rewrite <- advance_add. }
      replace (snd (rand (advance rand np (advance rand 1 r)))) with r3.
      2:{ unfold r3. rewrite advance_snd, <- advance_add. reflexivity. }
      eapply appends_bind; [exact H2|]. exact H3.
    + reflexivity.
    + unfold r3. rewrite <- !advance_add. f_equal. lia.
    + reflexivity.
  - rewrite !app_nil_l, !map_app, Ho1, Ho3, map_fst_combine by exact Hzl.
    replace 64%nat with (np + (length esc + (64 - np - length esc)))%nat by lia.
    rewrite !zseq_app. do 2 f_equal; [f_equal; lia|].
    f_equal; lia.
  - rewrite !app_nil_l, !map_app, Hv1, Hv3, map_snd_combine by exact Hzl.
    f_equal. f_equal. unfold r3. rewrite <- !advance_add. reflexivity.
Qed.

Lemma escape_run_draws (r : RandState) :
  Forall (fun sel =>
            (escape_draws sel <= length (escape_run rand r sel)
             <= escape_draws sel + 2)%nat)
         (zseq 0 50).
Proof.
  let l := eval vm_compute in (zseq 0 50) in change (zseq 0 50) with l.
  repeat (apply List.Forall_cons;
          [cbv [escape_run escape_table nth repeat app Z.to_nat Pos.to_nat
                  Pos.iter_op Nat.add length escape_draws]; lia|]).
  apply List.Forall_nil.
Qed.

Lemma prefix_run_in_catalog (r : RandState) is_64bit n :
  Forall (fun b => In b prefix_collection) (prefix_run rand r is_64bit n).
Proof.
  unfold prefix_run. apply List.Forall_forall. intros b Hb.
  apply in_map_iff in Hb as (j & <- & _).
  set (m := if is_64bit then sizeof_prefix_collection
            else sizeof_prefix_collection - 16).
  assert (Hm : 0 < m <= sizeof_prefix_collection)
    by (unfold m; destruct is_64bit; vm_compute; split; congruence).
  destruct (table_index_in_range (draw rand r j) m Hm) as (b & Hb).
  unfold array_get. rewrite Hb. apply list_elem_of_In.
  eapply list_elem_of_lookup_2. exact Hb.
Qed.

End DrawFacts.

(** X4: whatever the flag and the count, [generate_prefix_bytes] stores
    one byte per requested byte (none for a count of zero or less) and
    draws one random number for each; every stored byte is an entry of
    the prefix table, namely the entry at the index given by its draw;
    and with the 64-bit flag every entry of the table, the REX bytes
    included, is the byte stored for some draw. *)
Theorem generate_prefix_bytes_from_catalog
    {RandState : Type} (rand : RandState -> Z * RandState)
    (dst n : Z) (is_64bit : bool) (g : GenState RandState) :
  let g' := snd (generate_prefix_bytes rand dst n is_64bit g) in
  exists ws,
    writes g' = writes g ++ ws
    /\ length ws = Z.to_nat n
    /\ map snd ws = prefix_run rand (rng g) is_64bit (Z.to_nat n)
    /\ Forall (fun b => In b prefix_collection) (map snd ws)
    /\ rng g' = advance rand (Z.to_nat n) (rng g)
    /\ Forall (fun b => exists v,
                 0 <= v
                 /\ array_get prefix_collection
                      (to_size_t v mod sizeof_prefix_collection) = b)
              prefix_collection.
Proof.
  destruct (generate_prefix_bytes_exact rand dst n is_64bit (rng g))
    as (ws & Happ & Hoff & Hval).
  exists ws. destruct g as [r b w0]. simpl in *. rewrite Happ. simpl.
  split; [reflexivity|]. split.
  { rewrite <- (length_map fst), Hoff. apply zseq_length. }
  split; [exact Hval|]. split.
  { rewrite Hval. apply prefix_run_in_catalog. }
  split; [reflexivity|].
  apply Forall_lookup. intros i x Hx.
  pose proof (lookup_lt_Some _ _ _ Hx) as Hi.
  change (length prefix_collection) with 44%nat in Hi.
  exists (Z.of_nat i). split; [lia|].
  unfold array_get, to_size_t.
  rewrite (Z.mod_small (Z.of_nat i) (2 ^ 64)) by lia.
  rewrite Z.mod_small by (change sizeof_prefix_collection with 44; lia).
  now rewrite Nat2Z.id, Hx.
Qed.

(** X2: on a 64-byte array and a random source that keeps the C
    standard's promise, the array that [generate_rand_instr] leaves is the
    prefix run chosen by the draws after the count draw, then the escape
    sequence chosen by the selector draw and the one or two draws behind
    it, then the low bytes of the draws that follow, up to 64 bytes. *)
Theorem generate_rand_instr_is_candidate
    {RandState : Type} (rand : RandState -> Z * RandState)
    (rand_nonneg : forall s, 0 <= fst (rand s))
    (b : list byte) (is_64bit : bool) (r : RandState) :
  length b = 64%nat ->
  let g := call_generate_rand_instr rand b is_64bit r in
  buf g = candidate rand is_64bit r
  /\ length (candidate rand is_64bit r) = 64%nat
  /\ rng g = advance rand (candidate_draws rand r) r.
Proof.
  intros Hlen g.
  destruct (generate_rand_instr_exact rand is_64bit r
              (rand_nonneg _) (rand_nonneg _)) as (ws & Happ & Hoff & Hval).
  assert (Hg : g = mkGen (advance rand (candidate_draws rand r) r) (replay ws b) ws).
  { unfold g, call_generate_rand_instr. now rewrite Happ. }
  rewrite Hg. cbn [buf rng writes].
  rewrite replay_whole by (now rewrite Hlen). rewrite <- Hval.
  split; [reflexivity|]. split; [|reflexivity].
  rewrite length_map, <- (length_map fst ws), Hoff. apply zseq_length.
Qed.

(** The same on the sample generator of the C standard. *)
Lemma generate_rand_instr_is_candidate_witness :
  (forall s, 0 <= fst (lcg_rand s))
  /\ length (repeat x00 64) = 64%nat
  /\ let g := call_generate_rand_instr lcg_rand (repeat x00 64) false 7 in
     buf g = candidate lcg_rand false 7
     /\ length (candidate lcg_rand false 7) = 64%nat
     /\ rng g = advance lcg_rand (candidate_draws lcg_rand 7) 7.
Proof.
  split; [exact lcg_rand_nonneg|]. split; [reflexivity|].
  exact (generate_rand_instr_is_candidate lcg_rand lcg_rand_nonneg
           (repeat x00 64) false 7 eq_refl).
Defined.

(** X3: one call of [generate_rand_instr] makes 64, 65 or 66 calls of
    [rand()], whatever the prefix count: every prefix byte costs one draw
    and saves one tail byte, and the escape sequences cost at most as
    many draws as they store bytes and at least two less. *)
Theorem generate_rand_instr_draw_count
    {RandState : Type} (rand : RandState -> Z * RandState)
    (rand_nonneg : forall s, 0 <= fst (rand s))
    (b : list byte) (is_64bit : bool) (r : RandState) :
  exists k,
    (64 <= k <= 66)%nat
    /\ rng (call_generate_rand_instr rand b is_64bit r) = advance rand k r.
Proof.
  destruct (generate_rand_instr_exact rand is_64bit r
              (rand_nonneg _) (rand_nonneg _)) as (ws & Happ & _ & _).
  exists (candidate_draws rand r). split.
  - unfold candidate_draws.
    set (np := Z.to_nat (prefix_count (Z.rem (draw rand r 0) 254))).
    set (sel := Z.rem (draw rand r (1 + np)) 50).
    assert (Hnp : (np <= 15)%nat).
    { pose proof (prefix_count_range (Z.rem (draw rand r 0) 254)) as H.
      pose proof (Z.rem_bound_pos (draw rand r 0) 254 (rand_nonneg _) ltac:(lia)).
      unfold np. lia. }
    assert (Hsel : 0 <= sel < 50)
      by (apply Z.rem_bound_pos; [apply rand_nonneg | lia]).
    pose proof (escape_run_draws rand (advance rand (2 + np) r)) as Hall.
    rewrite List.Forall_forall in Hall.
    specialize (Hall sel (zseq_in 0 50 sel ltac:(lia))). cbv beta in Hall.
    pose proof (escape_run_length rand sel (advance rand (2 + np) r)). lia.
  - unfold call_generate_rand_instr. now rewrite Happ.
Qed.

(** The same on the sample generator of the C standard. *)
Lemma generate_rand_instr_draw_count_witness :
  (forall s, 0 <= fst (lcg_rand s))
  /\ exists k,
       (64 <= k <= 66)%nat
       /\ rng (call_generate_rand_instr lcg_rand (repeat x00 64) true 7)
          = advance lcg_rand k 7.
Proof.
  split; [exact lcg_rand_nonneg|].
  exact (generate_rand_instr_draw_count lcg_rand lcg_rand_nonneg
           (repeat x00 64) true 7).
Defined.

(** * The fields that the bias sets *)

Lemma byte_land_low (x k : Z) :
  Z.land 255 k = k -> Z.land (byte.unsigned (byte.of_Z x)) k = Z.land x k.
Proof.
  intros Hk. rewrite byte.unsigned_of_Z. unfold byte.wrap.
  change (2 ^ 8) with (2 ^ 8). rewrite <- Z.land_ones by lia.
  change (Z.ones 8) with 255. now rewrite <- Z.land_assoc, Hk.
Qed.

Lemma land_lxor_distr (a b c : Z) :
  Z.land (Z.lxor a b) c = Z.lxor (Z.land a c) (Z.land b c).
Proof.
  apply Z.bits_inj'. intros n Hn.
  rewrite !Z.land_spec, !Z.lxor_spec, !Z.land_spec.
  destruct (Z.testbit a n), (Z.testbit b n), (Z.testbit c n); reflexivity.
Qed.

Lemma land_lor_absorb (a c : Z) : Z.land (Z.lor a c) c = c.
Proof.
  apply Z.bits_inj'. intros n Hn.
  rewrite !Z.land_spec, !Z.lor_spec.
  destruct (Z.testbit a n), (Z.testbit c n); reflexivity.
Qed.

Lemma forced_field_ok (rv : Z) : vvvv_field_ok rv (byte.of_Z (forced_if_clear rv)).
Proof.
  unfold vvvv_field_ok, forced_if_clear.
  destruct (Z.eqb_spec (Z.land rv 0x300) 0) as [H|H]; split; intros H';
    try contradiction.
  - rewrite byte_land_low by reflexivity. apply land_lor_absorb.
  - now rewrite byte.unsigned_of_Z.
Qed.

Lemma masked_field_ok (rv mask field flip : Z) :
  Z.land 255 field = field ->
  Z.land mask field = 0 ->
  map_field_ok rv field (Z.land flip field) flip
    (byte.of_Z (Z.lxor (masked_if_flagged rv mask) flip)).
Proof.
  intros Hf Hm. unfold map_field_ok, masked_if_flagged.
  destruct (Z.eqb_spec (Z.land rv 0x300) 0) as [H|H]; split; intros H';
    try contradiction.
  - now rewrite byte.unsigned_of_Z.
  - rewrite byte_land_low by exact Hf.
    rewrite land_lxor_distr, <- Z.land_assoc, Hm, Z.land_0_r. apply Z.lxor_0_l.
Qed.

Lemma escape_bytes_nth {RandState : Type} (rand : RandState -> Z * RandState)
    (g : GenState RandState) (sel : Z) :
  0 <= sel < 50 ->
  escape_bytes rand sel g
  = nth (Z.to_nat sel)
        (escape_table (to_uint32 (fst (rand (rng g))))
                      (to_uint32 (fst (rand (snd (rand (rng g))))))) [].
Proof.
  intros Hsel. rewrite <- escape_bytes_table.
  rewrite (nth_indep _ [] (escape_bytes rand 0 g))
    by (rewrite length_map, zseq_length; lia).
  rewrite (map_nth (fun s => escape_bytes rand s g) (zseq 0 50) 0).
  f_equal. unfold zseq.
  rewrite (nth_indep _ 0 (0 + Z.of_nat 0))
    by (rewrite length_map, length_seq; lia).
  rewrite (map_nth (fun k => 0 + Z.of_nat k)), seq_nth by lia. lia.
Qed.

(** X11: what the bias does to the fields.  In the EVEX sequence a
    masked second byte has bit 3 clear, in the VEX3 sequence a masked
    second byte has the bits 2-4 clear, and in the XOP sequence a masked
    second byte has the bits 2-4 equal to 010, so that its map field is
    8 to 11; an unmasked second byte is the low byte of the first word
    (with bit 3 inverted for XOP).  In every family the reserved field of
    the last byte, the bits 3-6, is all ones when bits 8-9 of the word it
    is taken from are zero, and the byte is the low byte of that word
    otherwise. *)
Theorem escape_switch_fields_after_bias
    {RandState : Type} (rand : RandState -> Z * RandState)
    (g : GenState RandState) :
  let rv1 := to_uint32 (fst (rand (rng g))) in
  let rv2 := to_uint32 (fst (rand (snd (rand (rng g))))) in
  Forall (fun sel => exists b2 b3,
            escape_bytes rand sel g = [x62; b2; b3]
            /\ map_field_ok rv1 0x08 0 0 b2 /\ vvvv_field_ok rv2 b3) (zseq 5 6)
  /\ Forall (fun sel => exists b2 b3,
               escape_bytes rand sel g = [xc4; b2; b3]
               /\ map_field_ok rv1 0x1C 0 0 b2 /\ vvvv_field_ok rv2 b3) (zseq 11 6)
  /\ Forall (fun sel => exists b2,
               escape_bytes rand sel g = [xc5; b2]
               /\ vvvv_field_ok rv1 b2) (zseq 17 6)
  /\ Forall (fun sel => exists b2 b3,
               escape_bytes rand sel g = [x8f; b2; b3]
               /\ map_field_ok rv1 0x1C 8 8 b2 /\ vvvv_field_ok rv2 b3) (zseq 23 27).
Proof.
  intros rv1 rv2.
  assert (Hevex : map_field_ok rv1 0x08 0 0 (byte.of_Z (masked_if_flagged rv1 0xF7))).
  { rewrite <- (Z.lxor_0_r (masked_if_flagged rv1 0xF7)).
    apply (masked_field_ok rv1 0xF7 0x08 0); reflexivity. }
  assert (Hvex3 : map_field_ok rv1 0x1C 0 0 (byte.of_Z (masked_if_flagged rv1 0xE3))).
  { rewrite <- (Z.lxor_0_r (masked_if_flagged rv1 0xE3)).
    apply (masked_field_ok rv1 0xE3 0x1C 0); reflexivity. }
  assert (Hxop : map_field_ok rv1 0x1C 8 8
                   (byte.of_Z (Z.lxor (masked_if_flagged rv1 0xE3) 8)))
    by (apply (masked_field_ok rv1 0xE3 0x1C 8); reflexivity).
  pose proof (forced_field_ok rv1) as Hf1.
  pose proof (forced_field_ok rv2) as Hf2.
  repeat split; apply List.Forall_forall; intros sel Hin;
    apply zseq_bounds in Hin;
    rewrite escape_bytes_nth by lia; fold rv1 rv2;
    (assert (Hk : exists k, sel = Z.of_nat k) by (exists (Z.to_nat sel); lia));
    destruct Hk as [k ->]; rewrite Nat2Z.id;
    do 50 (destruct k as [|k]; [try lia; cbn [nth escape_table repeat app]; eauto|]);
    lia.
Qed.

(** * Further properties of the handler and the wrapper *)

Lemma read_hex_byte_fmt (b : byte) :
  read_hex_byte (fmt_02X (byte.unsigned b) ++ " ")%string = Some b.
Proof. destruct b; vm_compute; reflexivity. Qed.

Lemma read_report_app (t1 t2 : list event) :
  read_report (t1 ++ t2) = read_report t1 ++ read_report t2.
Proof.
  induction t1 as [|e t1 IH]; [reflexivity|].
  destruct e as [s| | | |]; simpl; try exact IH.
  destruct (read_hex_byte s); simpl; now rewrite IH.
Qed.

Lemma read_report_bytes (bytes : list byte) :
  read_report (map (fun b => EvPrintf (fmt_02X (byte.unsigned b) ++ " ")%string) bytes)
  = bytes.
Proof.
  induction bytes as [|b bytes IH]; [reflexivity|].
  simpl. now rewrite read_hex_byte_fmt, IH.
Qed.

Lemma read_report_handler_report s mode label bytes :
  read_report (handler_report s mode label bytes) = bytes.
Proof.
  unfold handler_report. rewrite !read_report_app, read_report_bytes.
  simpl. apply app_nil_r.
Qed.

(** X8: the diagnostic block can be read back: the texts of two
    hexadecimal digits and a space that the handler prints spell the 16
    recorded bytes, in order, and no other text of the block (the mode
    line with any label, the signal line) reads as a byte. *)
Theorem sigabrt_handler_report_reads_back
    {RandState : Type} (s : signal) (w : World RandState) :
  length (instr_buf (globals w)) = 16%nat ->
  read_report (trace (snd (sigabrt_handler s w)))
  = read_report (trace w) ++ instr_buf (globals w).
Proof.
  intros Hlen. rewrite sigabrt_handler_run by exact Hlen. simpl.
  now rewrite read_report_app, read_report_handler_report.
Qed.

(** The bytes read back from the report in the sample process. *)
Lemma sigabrt_handler_report_reads_back_witness :
  length (instr_buf (globals sample_world)) = 16%nat
  /\ read_report (trace (snd (sigabrt_handler SIGBUS sample_world)))
     = [xc4; xe2; x7b; xf7] ++ repeat x90 12.
Proof.
  split; [reflexivity|].
  exact (sigabrt_handler_report_reads_back SIGBUS sample_world eq_refl).
Defined.

Lemma sample_mode_value_inj (a b : ZydisMachineMode) :
  sample_mode_value a = sample_mode_value b -> a = b.
Proof. destruct a, b; simpl; intros H; try reflexivity; discriminate. Qed.

(** X5: when the machine-mode enumerators have different values, the
    label recorded for the 16-bit decoder is [protected16], for the
    32-bit decoder [protected32] and for both 64-bit decoders [long64]; a
    mode number that is none of the four cases gets [(n/a)]. *)
Theorem mode_label_of_decoders
    (machine_mode_value : ZydisMachineMode -> Z)
    (zydis_default_mode : ZydisDecoderMode -> bool) :
  (forall a b, machine_mode_value a = machine_mode_value b -> a = b) ->
  (forall d,
      mode_label machine_mode_value
        (machine_mode_value (machine_mode (decoders zydis_default_mode d)))
      = match d with
        | decoder_x86_16 => "protected16"
        | decoder_x86_32 => "protected32"
        | decoder_x86_64_intel | decoder_x86_64_amd => "long64"
        end%string)
  /\ (forall m,
        Forall (fun mode => m <> machine_mode_value mode)
          [ZYDIS_MACHINE_MODE_LONG_64; ZYDIS_MACHINE_MODE_LEGACY_32;
           ZYDIS_MACHINE_MODE_LEGACY_16; ZYDIS_MACHINE_MODE_REAL_16] ->
        mode_label machine_mode_value m = "(n/a)"%string).
Proof.
  intros Hinj. split.
  - intros d. unfold mode_label.
    destruct d; simpl;
      repeat match goal with
             | |- context [?x =? ?x] => rewrite (Z.eqb_refl x)
             | |- context [machine_mode_value ?a =? machine_mode_value ?b] =>
                 destruct (Z.eqb_spec (machine_mode_value a) (machine_mode_value b))
                   as [He | _];
                 [apply Hinj in He; discriminate |]
             end; reflexivity.
  - intros m Hm. unfold mode_label.
    repeat match goal with
           | H : Forall _ (_ :: _) |- _ => apply Forall_cons in H as [? H]
           end.
    repeat match goal with
           | |- context [m =? ?v] =>
               destruct (Z.eqb_spec m v); [contradiction|]
           end.
    reflexivity.
Qed.

(** The labels for the sample enumerator values. *)
Lemma mode_label_of_decoders_witness :
  (forall a b, sample_mode_value a = sample_mode_value b -> a = b)
  /\ mode_label sample_mode_value
       (sample_mode_value (machine_mode (decoders (fun _ => false) decoder_x86_64_amd)))
     = "long64"%string.
Proof.
  split; [exact sample_mode_value_inj|].
  exact (proj1 (mode_label_of_decoders sample_mode_value (fun _ => false)
                  sample_mode_value_inj) decoder_x86_64_amd).
Defined.

(** X9: a call of the wrapper with a buffer of at least 16 bytes calls
    the decoder exactly once, with the arguments it was given, and
    returns what the decoder returns; afterwards the globals hold the
    memento of this call whatever they held before; the random source
    and the installed handlers are untouched. *)
Theorem wrapped_decoder_contract
    {RandState : Type} (machine_mode_value : ZydisMachineMode -> Z)
    (zydis_default_mode : ZydisDecoderMode -> bool)
    (ZydisDecoderDecodeBuffer : ZydisDecoder -> list byte -> Z -> DecodeOutcome)
    (d : decoder_ptr) (buffer : list byte) (len : Z) (w : World RandState) :
  length (instr_buf (globals w)) = 16%nat ->
  (16 <= length buffer)%nat ->
  let res := wrapped_ZydisDecoderDecodeBuffer machine_mode_value zydis_default_mode
               ZydisDecoderDecodeBuffer d buffer len w in
  fst res = ZydisDecoderDecodeBuffer (decoders zydis_default_mode d) buffer len
  /\ globals (snd res) = expected_memento machine_mode_value zydis_default_mode d buffer
  /\ submissions (trace (snd res)) = submissions (trace w) ++ [(d, buffer)]
  /\ (exists t, trace (snd res)
                = trace w ++ EvDecode d buffer len
                               (expected_memento machine_mode_value
                                  zydis_default_mode d buffer) :: t)
  /\ w_rng (snd res) = w_rng w
  /\ handled (snd res) = handled w.
Proof.
  intros Hlen Hbuf res.
  pose proof (wrapped_run_exact machine_mode_value zydis_default_mode
                ZydisDecoderDecodeBuffer d buffer len w Hlen Hbuf) as H.
  cbv zeta in H. unfold res. rewrite H. cbn [fst snd globals w_rng handled trace].
  repeat split.
  - rewrite submissions_app. cbn [submissions].
    now rewrite (submissions_quiet _ (after_call_quiet _ _ _)).
  - eexists. reflexivity.
Qed.

(** A call in the sample process with a candidate that the sample decoder
    crashes on. *)
Lemma wrapped_decoder_contract_witness :
  length (instr_buf (globals sample_world)) = 16%nat
  /\ (16 <= length (x66 :: repeat x90 63))%nat
  /\ let res := wrapped_ZydisDecoderDecodeBuffer sample_mode_value (fun _ => false)
                  sample_decoder decoder_x86_16 (x66 :: repeat x90 63) 64
                  sample_world in
     fst res = Raises SIGSEGV
     /\ globals (snd res)
        = mkMemento (x66 :: repeat x90 15) 4 (Some "protected16"%string).
Proof.
  split; [reflexivity|]. split; [vm_compute; lia|].
  pose proof (wrapped_decoder_contract sample_mode_value (fun _ => false)
                sample_decoder decoder_x86_16 (x66 :: repeat x90 63) 64
                sample_world eq_refl ltac:(vm_compute; lia)) as H.
  split; [exact (proj1 H) | exact (proj1 (proj2 H))].
Defined.

(** * Further properties of the main loop *)

Lemma rem_eqb_mod (p m : Z) : m <> 0 -> (Z.rem p m =? 0) = (p mod m =? 0).
Proof.
  intros Hm.
  destruct (Z.eqb_spec (Z.rem p m) 0) as [H|H], (Z.eqb_spec (p mod m) 0) as [H'|H'];
    try reflexivity; exfalso.
  - apply H'. apply Z.mod_divide; [exact Hm|]. now apply Z.rem_divide.
  - apply H. apply Z.rem_divide; [exact Hm|]. now apply Z.mod_divide.
Qed.

Lemma ten_million_million (p : Z) : p mod 10000000 = 0 -> p mod 1000000 = 0.
Proof.
  intros H. apply Z.mod_divide in H; [|lia]. destruct H as [k ->].
  apply Z.mod_divide; [lia|]. exists (k * 10). lia.
Qed.

Lemma quot_div_million (p : Z) :
  p mod 1000000 = 0 -> Z.quot p 1000000 = p / 1000000.
Proof.
  intros H. apply Z.mod_divide in H; [|lia]. destruct H as [k ->].
  now rewrite Z.quot_mul, Z.div_mul by lia.
Qed.

Lemma div_succ_step (m i : Z) :
  0 < m -> (i + 1) / m = i / m + (if (i + 1) mod m =? 0 then 1 else 0).
Proof.
  intros Hm. destruct (Z.eqb_spec ((i + 1) mod m) 0) as [H|H].
  - pose proof (Z.div_mod (i + 1) m ltac:(lia)) as E1.
    pose proof (Z.div_mod i m ltac:(lia)) as E2.
    pose proof (Z.mod_pos_bound i m Hm). nia.
  - pose proof (Z.div_mod (i + 1) m ltac:(lia)) as E1.
    pose proof (Z.div_mod i m ltac:(lia)) as E2.
    pose proof (Z.mod_pos_bound i m Hm).
    pose proof (Z.mod_pos_bound (i + 1) m Hm). nia.
Qed.

Lemma crumbs_dots (p : Z) :
  Z.of_nat (length (List.filter is_dot (crumbs p)))
  = if p mod 1000000 =? 0 then 1 else 0.
Proof.
  unfold crumbs. destruct (p mod 1000000 =? 0); [|reflexivity].
  destruct (p mod 10000000 =? 0); reflexivity.
Qed.

Lemma crumbs_count_lines (p : Z) :
  Z.of_nat (length (List.filter is_count_line (crumbs p)))
  = if p mod 10000000 =? 0 then 1 else 0.
Proof.
  unfold crumbs.
  destruct (Z.eqb_spec (p mod 10000000) 0) as [H|H].
  - rewrite (ten_million_million p H). reflexivity.
  - destruct (p mod 1000000 =? 0); reflexivity.
Qed.

Lemma crumbs_not_terminal (p : Z) :
  Forall (fun e => terminal e = false) (crumbs p).
Proof.
  unfold crumbs. destruct (p mod 1000000 =? 0); [|constructor].
  destruct (p mod 10000000 =? 0); repeat constructor.
Qed.

Lemma crumbs_quiet (p : Z) : Forall quiet (crumbs p).
Proof.
  unfold crumbs. destruct (p mod 1000000 =? 0); [|constructor].
  destruct (p mod 10000000 =? 0); repeat constructor.
Qed.

Lemma handler_report_ends s mode label bytes :
  exists t0,
    handler_report s mode label bytes = t0 ++ [EvExit EXIT_FAILURE]
    /\ Forall (fun e => terminal e = false) t0.
Proof.
  exists ([ EvPrintf nl;
            EvPrintf ("Machine mode: " ++ fmt_d mode ++ " (" ++ label ++ ")" ++ nl)%string;
            EvPrintf ("Opcode at time of " ++ signal_name s ++ ":" ++ nl)%string ]
          ++ map (fun b => EvPrintf (fmt_02X (byte.unsigned b) ++ " ")%string) bytes
          ++ [EvPrintf nl; EvFflush]).
  split.
  - unfold handler_report. rewrite <- !app_assoc. reflexivity.
  - repeat (apply Forall_app; split); try (repeat constructor).
    apply List.Forall_forall. intros e He. apply in_map_iff in He as (b & <- & _).
    reflexivity.
Qed.

Lemma after_call_raise_ends h m s :
  exists t0 e,
    after_call h m (Raises s) = t0 ++ [e]
    /\ (terminal e = true /\ e <> EvExit EXIT_SUCCESS)
    /\ Forall (fun x => terminal x = false) t0.
Proof.
  simpl. destruct (existsb (signal_eqb s) h).
  - destruct (handler_report_ends s (machine_mode_int m)
                (fmt_s (machine_mode_str m)) (instr_buf m)) as (t0 & -> & H0).
    exists t0, (EvExit EXIT_FAILURE). repeat split; [discriminate | exact H0].
  - exists [], (EvKilled s). repeat split; [discriminate | constructor].
Qed.

Section RunFacts.

Context {RandState : Type}.
Variable rand : RandState -> Z * RandState.
Variable machine_mode_value : ZydisMachineMode -> Z.
Variable zydis_default_mode : ZydisDecoderMode -> bool.
Variable ZydisDecoderDecodeBuffer : ZydisDecoder -> list byte -> Z -> DecodeOutcome.

Abbreviation expected' := (expected_memento machine_mode_value zydis_default_mode).
Abbreviation body' :=
  (loop_body rand machine_mode_value zydis_default_mode ZydisDecoderDecodeBuffer).
Abbreviation loop' :=
  (fuzz_loop rand machine_mode_value zydis_default_mode ZydisDecoderDecodeBuffer).

(** The breadcrumbs in terms of divisibility. *)
Lemma breadcrumbs_exact (passed_tests : Z) (w : World RandState) :
  breadcrumbs passed_tests w
  = (tt, mkWorld (w_rng w) (globals w) (handled w) (trace w ++ crumbs passed_tests)).
Proof.
  unfold breadcrumbs, crumbs, c_true. rewrite !Bool.negb_involutive.
  rewrite !rem_eqb_mod by lia.
  destruct w as [r m h t]. unfold bind, emit, ret. cbn [w_rng globals handled trace].
  destruct (Z.eqb_spec (passed_tests mod 1000000) 0) as [H6|H6];
    [|now rewrite app_nil_r].
  rewrite (quot_div_million _ H6).
  destruct (passed_tests mod 10000000 =? 0);
    cbn [fst snd w_rng globals handled trace];
    rewrite <- ?app_assoc; reflexivity.
Qed.

(** One pass of the loop, event by event. *)
Lemma loop_body_exact (i : Z) (junk : nat -> byte) (w : World RandState) :
  length (instr_buf (globals w)) = 16%nat ->
  exists bits d,
    select_decoder (Z.land (fst (rand (w_rng w))) 3) = Some (bits, d)
    /\ let g := call_generate_rand_instr rand (stack_array 64 junk) (bits =? 64)
                  (snd (rand (w_rng w))) in
       let o := ZydisDecoderDecodeBuffer (decoders zydis_default_mode d) (buf g) 64 in
       body' i junk w
       = (match o with Returns _ => true | Raises _ => false end,
          mkWorld (rng g) (expected' d (buf g)) (handled w)
            (trace w ++ EvDecode d (buf g) 64 (expected' d (buf g))
                        :: after_call (handled w) (expected' d (buf g)) o
                        ++ match o with
                           | Returns _ => crumbs (i + 1)
                           | Raises _ => []
                           end)).
Proof.
  intros Hlen.
  assert (Hsel : exists bits d,
             select_decoder (Z.land (fst (rand (w_rng w))) 3) = Some (bits, d)).
  { destruct (land_3_cases (fst (rand (w_rng w)))) as [H|[H|[H|H]]];
      rewrite H; eexists _, _; reflexivity. }
  destruct Hsel as (bits & d & Hsel). exists bits, d. split; [exact Hsel|].
  intros g o.
  assert (Hg : length (buf g) = 64%nat).
  { unfold g. rewrite call_generate_rand_instr_length. apply stack_array_length. }
  pose proof (wrapped_run_exact machine_mode_value zydis_default_mode
                ZydisDecoderDecodeBuffer d (buf g) 64
                (mkWorld (rng g) (globals w) (handled w) (trace w))
                Hlen ltac:(lia)) as Hw.
  cbv zeta in Hw. cbn [w_rng globals handled trace] in Hw. fold o in Hw.
  unfold loop_body, bind, main_rand, main_generate_rand_instr.
  destruct w as [r m h t]. cbn [w_rng globals handled trace] in *.
  destruct (rand r) as [v r1] eqn:Er. cbn [fst snd] in *. rewrite Hsel.
  cbn [w_rng globals handled trace]. fold g. rewrite Hw.
  destruct o as [st|s].
  - rewrite breadcrumbs_exact. cbn [w_rng globals handled trace after_call].
    unfold ret. rewrite <- app_assoc. reflexivity.
  - unfold ret. now rewrite app_nil_r.
Qed.

Abbreviation not_terminal := (fun e : event => terminal e = false).

(** The shape of the trace of the loop: while it goes on, nothing ends
    the process, one submission is made per pass and the breadcrumbs
    follow the count of passed tests; when it stops, the last event ends
    the process and no earlier one does. *)
Lemma fuzz_loop_shape (junk : Z -> nat -> byte) :
  forall n i (w : World RandState),
    length (instr_buf (globals w)) = 16%nat ->
    exists t,
      trace (snd (loop' n i junk w)) = trace w ++ t
      /\ (length (submissions t) <= n)%nat
      /\ (fst (loop' n i junk w) = true ->
          Forall not_terminal t
          /\ length (submissions t) = n
          /\ Z.of_nat (length (List.filter is_dot t))
             = (i + Z.of_nat n) / 1000000 - i / 1000000
          /\ Z.of_nat (length (List.filter is_count_line t))
             = (i + Z.of_nat n) / 10000000 - i / 10000000)
      /\ (fst (loop' n i junk w) = false ->
          exists t0 e,
            t = t0 ++ [e]
            /\ (terminal e = true /\ e <> EvExit EXIT_SUCCESS)
            /\ Forall not_terminal t0).
Proof.
  induction n as [|n IH]; intros i w Hlen.
  - exists []. simpl. rewrite app_nil_r, Z.add_0_r, !Z.sub_diag.
    repeat split; try constructor; try lia; try discriminate.
  - destruct (loop_body_exact i (junk i) w Hlen) as (bits & d & _ & Hbody).
    cbv zeta in Hbody.
    set (g := call_generate_rand_instr rand (stack_array 64 (junk i)) (bits =? 64)
                (snd (rand (w_rng w)))) in *.
    simpl fuzz_loop. unfold bind. rewrite Hbody.
    destruct (ZydisDecoderDecodeBuffer (decoders zydis_default_mode d) (buf g) 64)
      as [st|s].
    + cbn [after_call app].
      match goal with
      | |- context [fuzz_loop _ _ _ _ n (i + 1) junk ?w1] =>
          destruct (IH (i + 1) w1) as (t & Ht & Hle & Hgo & Hstop);
          [cbn [globals instr_buf expected_memento]; rewrite length_take;
           pose proof (call_generate_rand_instr_length rand
                         (stack_array 64 (junk i)) (bits =? 64)
                         (snd (rand (w_rng w)))) as Hg;
           fold g in Hg; rewrite stack_array_length in Hg; lia|];
          destruct (fuzz_loop rand machine_mode_value zydis_default_mode
                      ZydisDecoderDecodeBuffer n (i + 1) junk w1) as [alive w2]
      end.
      cbn [fst snd trace] in *.
      exists (EvDecode d (buf g) 64 (expected' d (buf g)) :: crumbs (i + 1) ++ t).
      assert (Hsub : submissions (EvDecode d (buf g) 64 (expected' d (buf g))
                                    :: crumbs (i + 1) ++ t)
                     = (d, buf g) :: submissions t).
      { cbn [submissions]. rewrite submissions_app.
        now rewrite (submissions_quiet _ (crumbs_quiet _)). }
      split; [rewrite Ht, <- app_assoc; reflexivity|].
      split; [rewrite Hsub; simpl; lia|]. split.
      * intros Halive. destruct (Hgo Halive) as (Hnt & Hn & Hdots & Hcnt).
        split; [constructor; [reflexivity | apply Forall_app; split;
                                             [apply crumbs_not_terminal | exact Hnt]]|].
        split; [rewrite Hsub; simpl; lia|].
        cbn [List.filter is_dot is_count_line].
        rewrite !List.filter_app, !length_app, !Nat2Z.inj_add, Hdots, Hcnt,
          crumbs_dots, crumbs_count_lines.
        replace (i + Z.of_nat (S n)) with (i + 1 + Z.of_nat n) by lia.
        rewrite (div_succ_step 1000000 i), (div_succ_step 10000000 i) by lia.
        split; lia.
      * intros Hdead. destruct (Hstop Hdead) as (t0 & e & -> & He & Hnt).
        exists (EvDecode d (buf g) 64 (expected' d (buf g)) :: crumbs (i + 1) ++ t0), e.
        split; [cbn [app]; now rewrite app_assoc|]. split; [exact He|].
        constructor; [reflexivity | apply Forall_app; split;
                                    [apply crumbs_not_terminal | exact Hnt]].
    + cbn [fst snd trace]. rewrite app_nil_r.
      destruct (after_call_raise_ends (handled w) (expected' d (buf g)) s)
        as (t0 & e & Hac & He & Hnt).
      exists (EvDecode d (buf g) 64 (expected' d (buf g))
                :: after_call (handled w) (expected' d (buf g)) (Raises s)).
      split; [reflexivity|]. split.
      { cbn [submissions].
        rewrite (submissions_quiet _ (after_call_quiet _ _ _)). simpl. lia. }
      split; [discriminate|]. intros _.
      exists (EvDecode d (buf g) 64 (expected' d (buf g)) :: t0), e.
      rewrite Hac. split; [reflexivity|]. split; [exact He|].
      constructor; [reflexivity | exact Hnt].
Qed.

(** With a decoder that never raises a signal the loop runs to the end. *)
Lemma fuzz_loop_sound (junk : Z -> nat -> byte) :
  (forall dcd b l, exists st, ZydisDecoderDecodeBuffer dcd b l = Returns st) ->
  forall n i (w : World RandState),
    length (instr_buf (globals w)) = 16%nat ->
    fst (loop' n i junk w) = true.
Proof.
  intros Hsound. induction n as [|n IH]; intros i w Hlen; [reflexivity|].
  destruct (loop_body_exact i (junk i) w Hlen) as (bits & d & _ & Hbody).
  cbv zeta in Hbody.
  set (g := call_generate_rand_instr rand (stack_array 64 (junk i)) (bits =? 64)
              (snd (rand (w_rng w)))) in *.
  simpl fuzz_loop. unfold bind. rewrite Hbody.
  destruct (Hsound (decoders zydis_default_mode d) (buf g) 64) as [st ->].
  apply IH. cbn [globals instr_buf expected_memento]. rewrite length_take.
  pose proof (call_generate_rand_instr_length rand (stack_array 64 (junk i))
                (bits =? 64) (snd (rand (w_rng w)))) as Hg.
  fold g in Hg. rewrite stack_array_length in Hg. lia.
Qed.

Lemma candidate_stream_length n (r : RandState) :
  (length (candidate_stream rand n r) <= n)%nat.
Proof.
  revert r. induction n as [|n IH]; intros r; [reflexivity|].
  cbn [candidate_stream]. destruct (rand r) as [v r1].
  destruct (select_decoder (Z.land v 3)) as [[bits d]|]; [|cbn [length]; lia].
  cbv zeta. cbn [length]. apply le_n_S, IH.
Qed.

End RunFacts.

(** X7: the breadcrumbs go by divisibility, for every integer count:
    nothing is printed unless the count of passed tests is a multiple of
    a million; for a multiple of a million that is no multiple of ten
    million a dot is printed and the output flushed; for a multiple of
    ten million the dot is followed by the line with the count in
    millions, right-aligned in four columns, before the flush.  Nothing
    else in the process changes. *)
Theorem breadcrumbs_by_divisibility
    {RandState : Type} (passed_tests : Z) (w : World RandState) :
  exists t,
    snd (breadcrumbs passed_tests w)
    = mkWorld (w_rng w) (globals w) (handled w) (trace w ++ t)
    /\ (~ (1000000 | passed_tests) -> t = [])
    /\ ((1000000 | passed_tests) -> ~ (10000000 | passed_tests) ->
        t = [EvPrintf "."; EvFflush])
    /\ ((10000000 | passed_tests) ->
        t = [ EvPrintf ".";
              EvPrintf ("[ " ++ fmt_4d (passed_tests / 1000000)
                        ++ "M tests passed ]" ++ nl)%string;
              EvFflush ]).
Proof.
  exists (crumbs passed_tests). rewrite breadcrumbs_exact. split; [reflexivity|].
  unfold crumbs.
  destruct (Z.eqb_spec (passed_tests mod 1000000) 0) as [H6|H6];
    destruct (Z.eqb_spec (passed_tests mod 10000000) 0) as [H7|H7].
  - repeat split; try reflexivity; intros Hd; try (intros Hn); exfalso.
    + apply Hd. now apply Z.mod_divide.
    + apply Hn. now apply Z.mod_divide.
  - repeat split; try reflexivity; intros Hd; exfalso.
    + apply Hd. now apply Z.mod_divide.
    + apply H7. now apply Z.mod_divide.
  - exfalso. apply H6. now apply ten_million_million.
  - repeat split; try reflexivity; intros Hd; try (intros Hn); exfalso.
    + apply H6. now apply Z.mod_divide.
    + apply H7. now apply Z.mod_divide.
Qed.

(** The breadcrumbs after twenty million passed tests. *)
Example breadcrumbs_at_twenty_million :
  trace (snd (breadcrumbs 20000000 sample_world))
  = [ EvPrintf "."; EvPrintf ("[   20M tests passed ]" ++ nl)%string; EvFflush ].
Proof. vm_compute. reflexivity. Qed.

(** X10: every run of [main] ends exactly once: the last event of its
    trace is an exit or the death of the process, and no earlier event
    is; at most as many candidates are submitted as the budget allows;
    and the exit is [EXIT_SUCCESS] only when the whole budget was
    submitted. *)
Theorem run_ends_exactly_once
    {RandState : Type} (rand : RandState -> Z * RandState) (srand : Z -> RandState)
    (atoi : string -> Z) (machine_mode_value : ZydisMachineMode -> Z)
    (zydis_default_mode : ZydisDecoderMode -> bool)
    (ZydisDecoderDecodeBuffer : ZydisDecoder -> list byte -> Z -> DecodeOutcome)
    (n : nat) (argv : list string) (junk : Z -> nat -> byte) (r0 : RandState) :
  let w := snd (main_with_budget rand srand atoi machine_mode_value
                  zydis_default_mode ZydisDecoderDecodeBuffer n argv junk
                  (initial_world r0)) in
  exists t0 e,
    trace w = t0 ++ [e]
    /\ terminal e = true
    /\ Forall (fun x => terminal x = false) t0
    /\ (length (submissions (trace w)) <= n)%nat
    /\ (e = EvExit EXIT_SUCCESS -> length (submissions (trace w)) = n).
Proof.
  intros w. unfold w, main_with_budget, bind, install_sigabrt_handler.
  cbn [w_rng globals handled trace initial_world].
  match goal with
  | |- context [fuzz_loop _ _ _ _ n 0 junk ?w1] =>
      destruct (fuzz_loop_shape rand machine_mode_value zydis_default_mode
                  ZydisDecoderDecodeBuffer junk n 0 w1 eq_refl)
        as (t & Ht & Hle & Hgo & Hstop);
      destruct (fuzz_loop rand machine_mode_value zydis_default_mode
                  ZydisDecoderDecodeBuffer n 0 junk w1) as [alive w2]
  end.
  cbn [fst snd trace app] in *. destruct alive.
  - destruct (Hgo eq_refl) as (Hnt & Hn & _).
    exists t, (EvExit EXIT_SUCCESS). unfold emit. cbn [snd trace]. rewrite Ht.
    rewrite submissions_app. cbn [submissions]. rewrite app_nil_r.
    repeat split; [exact Hnt | lia | intros _; exact Hn].
  - destruct (Hstop eq_refl) as (t0 & e & -> & [He Hne] & Hnt).
    exists t0, e. unfold ret. cbn [snd]. rewrite Ht.
    repeat split; [exact He | exact Hnt | exact Hle | intros ->; contradiction].
Qed.

(** X6: with a decoder that never raises a signal and a random source
    that keeps the C standard's promise, a run with budget [n] submits
    exactly [n] candidates, the whole candidate stream of the seed;
    prints one dot per full million of them and one count line per full
    ten million; and ends with [EXIT_SUCCESS], its only exit. *)
Theorem sound_run_completes
    {RandState : Type} (rand : RandState -> Z * RandState)
    (rand_nonneg : forall s, 0 <= fst (rand s))
    (srand : Z -> RandState)
    (atoi : string -> Z) (machine_mode_value : ZydisMachineMode -> Z)
    (zydis_default_mode : ZydisDecoderMode -> bool)
    (ZydisDecoderDecodeBuffer : ZydisDecoder -> list byte -> Z -> DecodeOutcome)
    (n : nat) (argv : list string) (junk : Z -> nat -> byte) (r0 : RandState) :
  (forall dcd b l, exists st, ZydisDecoderDecodeBuffer dcd b l = Returns st) ->
  let w := snd (main_with_budget rand srand atoi machine_mode_value
                  zydis_default_mode ZydisDecoderDecodeBuffer n argv junk
                  (initial_world r0)) in
  submissions (trace w) = candidate_stream rand n (srand (seed_of atoi argv))
  /\ length (submissions (trace w)) = n
  /\ Z.of_nat (length (List.filter is_dot (trace w))) = Z.of_nat n / 1000000
  /\ Z.of_nat (length (List.filter is_count_line (trace w))) = Z.of_nat n / 10000000
  /\ List.filter terminal (trace w) = [EvExit EXIT_SUCCESS]
  /\ last (trace w) = Some (EvExit EXIT_SUCCESS).
Proof.
  intros Hsound w. unfold w, main_with_budget, bind, install_sigabrt_handler.
  cbn [w_rng globals handled trace initial_world].
  match goal with
  | |- context [fuzz_loop _ _ _ _ n 0 junk ?w1] =>
      destruct (fuzz_loop_shape rand machine_mode_value zydis_default_mode
                  ZydisDecoderDecodeBuffer junk n 0 w1 eq_refl)
        as (t & Ht & _ & Hgo & _);
      pose proof (fuzz_loop_sound rand machine_mode_value zydis_default_mode
                    ZydisDecoderDecodeBuffer junk Hsound n 0 w1 eq_refl) as Halive;
      destruct (fuzz_loop_stream rand machine_mode_value zydis_default_mode
                  ZydisDecoderDecodeBuffer rand_nonneg junk n 0 w1 eq_refl)
        as (k & Hk & Hsub);
      destruct (fuzz_loop rand machine_mode_value zydis_default_mode
                  ZydisDecoderDecodeBuffer n 0 junk w1) as [alive w2]
  end.
  cbn [fst snd trace app w_rng submissions] in *. subst alive.
  destruct (Hgo eq_refl) as (Hnt & Hn & Hdots & Hcnt).
  unfold emit. cbn [snd trace]. rewrite Ht in *.
  fold (seed_of atoi argv) in Hsub.
  pose proof (candidate_stream_length rand n (srand (seed_of atoi argv))) as Hlen.
  assert (Hall : submissions t = candidate_stream rand n (srand (seed_of atoi argv))).
  { rewrite Hsub. apply take_ge.
    rewrite Hsub, length_take in Hn. lia. }
  rewrite submissions_app, !List.filter_app, !length_app. cbn [submissions].
  rewrite app_nil_r, (filter_none terminal t Hnt), last_snoc.
  cbn [List.filter is_dot is_count_line terminal length app].
  rewrite !Nat.add_0_r, Hdots, Hcnt, Z.add_0_l.
  change (0 / 1000000) with 0. change (0 / 10000000) with 0. rewrite !Z.sub_0_r.
  repeat split; assumption.
Qed.

(** Three passes with the sample generator and the decoder that never
    crashes. *)
Lemma sound_run_completes_witness :
  (forall s, 0 <= fst (lcg_rand s))
  /\ (forall dcd b l, exists st, sound_decoder dcd b l = Returns st)
  /\ let w := snd (main_with_budget lcg_rand (fun seed => seed) (fun _ => 2021)
                     sample_mode_value (fun _ => false) sound_decoder
                     3 ["fuzz"; "2021"]%string (fun _ _ => x00) (initial_world 0)) in
     submissions (trace w) = candidate_stream lcg_rand 3 2021
     /\ length (submissions (trace w)) = 3%nat
     /\ last (trace w) = Some (EvExit EXIT_SUCCESS).
Proof.
  split; [exact lcg_rand_nonneg|].
  split; [intros dcd b l; exists 0; reflexivity|].
  pose proof (sound_run_completes lcg_rand lcg_rand_nonneg (fun seed => seed)
                (fun _ => 2021) sample_mode_value (fun _ => false) sound_decoder
                3 ["fuzz"; "2021"]%string (fun _ _ => x00) 0
                (fun dcd b l => ex_intro _ 0 eq_refl)) as H.
  cbv zeta in H. cbv zeta.
  split; [exact (proj1 H)|]. split; [exact (proj1 (proj2 H))|].
  exact (proj2 (proj2 (proj2 (proj2 (proj2 H))))).
Defined.
